(** * ScamScreener relay: request authentication and invite redemption

    A shallow embedding of the relay's core (src/security/signature.ts,
    src/security/nonces.ts, src/routes/redeem.ts, src/routes/upload.ts and
    the schema of migrations/001_init.sql) together with the properties
    the design document states about it.

    Conventions.
    - A JavaScript string is modelled by the [string] of its UTF-8 bytes.
      Every length that the code takes is taken of a string that already
      passed an ASCII-only test, so byte length and [.length] agree there.
    - A [Buffer] is a [list byte].
    - A JavaScript exception is a value: a computation that may throw
      returns a [completion].
    - The durable store is a record of four finite maps, one per table,
      keyed by the table's primary key. *)

From Stdlib Require Import ZArith Lia List Bool.
From Stdlib.Strings Require Import String Ascii Byte.
From Stdlib Require Import DecimalString DecimalZ.
From stdpp Require Import base option gmap strings list fin_maps.

Local Open Scope string_scope.
Local Open Scope list_scope.
Local Open Scope Z_scope.

(** ** Bytes and hexadecimal text *)

Module Bytes.

Definition Z_of_byte (b : byte) : Z := Z.of_N (Byte.to_N b).

Definition byte_of_Z (z : Z) : byte :=
  match Byte.of_N (Z.to_N (z mod 256)) with
  | Some b => b
  | None => x00
  end.

(** The bytes Node hashes for a string argument (its UTF-8 encoding). *)
Definition utf8 (s : string) : list byte := list_byte_of_string s.

(** Big-endian rendering of a 32-bit and of a 64-bit quantity. *)
Definition be32 (w : Z) : list byte :=
  [byte_of_Z (Z.shiftr w 24); byte_of_Z (Z.shiftr w 16);
   byte_of_Z (Z.shiftr w 8); byte_of_Z w].

Definition be64 (w : Z) : list byte := be32 (Z.shiftr w 32) ++ be32 w.

Definition word_of_be (b3 b2 b1 b0 : byte) : Z :=
  Z.lor (Z.shiftl (Z_of_byte b3) 24)
    (Z.lor (Z.shiftl (Z_of_byte b2) 16)
       (Z.lor (Z.shiftl (Z_of_byte b1) 8) (Z_of_byte b0))).

End Bytes.

Module Hex.

(** Value of one hexadecimal digit, either case; [None] for any other
    character. *)
Definition digitValue (c : ascii) : option Z :=
  let n := Z.of_nat (nat_of_ascii c) in
  if (48 <=? n) && (n <=? 57) then Some (n - 48)
  else if (97 <=? n) && (n <=? 102) then Some (n - 87)
  else if (65 <=? n) && (n <=? 70) then Some (n - 55)
  else None.

Definition isHexChar (c : ascii) : bool :=
  match digitValue c with Some _ => true | None => false end.

Definition isLowerHexChar (c : ascii) : bool :=
  let n := Z.of_nat (nat_of_ascii c) in
  ((48 <=? n) && (n <=? 57)) || ((97 <=? n) && (n <=? 102)).

Definition isDigitChar (c : ascii) : bool :=
  let n := Z.of_nat (nat_of_ascii c) in (48 <=? n) && (n <=? 57).

Fixpoint allChars (p : ascii -> bool) (s : string) : bool :=
  match s with
  | EmptyString => true
  | String c rest => p c && allChars p rest
  end.

Definition nonEmpty (s : string) : bool :=
  match s with EmptyString => false | String _ _ => true end.

(** The lower-case digit of a nibble, as [digest("hex")] prints it. *)
Definition lowerDigit (n : Z) : ascii :=
  if n <? 10 then ascii_of_nat (Z.to_nat (48 + n))
  else ascii_of_nat (Z.to_nat (87 + n)).

(** [buf.toString("hex")]. *)
Fixpoint encode (bs : list byte) : string :=
  match bs with
  | [] => EmptyString
  | b :: rest =>
      let v := Bytes.Z_of_byte b in
      String (lowerDigit (v / 16)) (String (lowerDigit (v mod 16)) (encode rest))
  end.

(** [Buffer.from(s, "hex")]: pairs of digits are decoded from the left;
    decoding stops at the first pair that is not two hex digits, and a
    trailing single character is dropped. *)
Fixpoint decode (s : string) : list byte :=
  match s with
  | String c1 (String c2 rest) =>
      match digitValue c1, digitValue c2 with
      | Some hi, Some lo => Bytes.byte_of_Z (16 * hi + lo) :: decode rest
      | _, _ => []
      end
  | _ => []
  end.

(** [s.toLowerCase()] on the ASCII letters; other bytes are kept. *)
Definition lowerChar (c : ascii) : ascii :=
  let n := nat_of_ascii c in
  if (65 <=? n)%nat && (n <=? 90)%nat then ascii_of_nat (n + 32) else c.

Fixpoint toLowerCase (s : string) : string :=
  match s with
  | EmptyString => EmptyString
  | String c rest => String (lowerChar c) (toLowerCase rest)
  end.

End Hex.

(** ** SHA-256 and HMAC, the two primitives taken from [node:crypto]

    [crypto.createHash("sha256")] is FIPS 180-4 SHA-256 and
    [crypto.createHmac("sha256", key)] is the HMAC construction of
    RFC 2104 over it. Words are integers in [0, 2^32). *)

Module Sha256.

Definition wrap (x : Z) : Z := x mod 4294967296.
Definition add (x y : Z) : Z := wrap (x + y).
Definition rotr (n x : Z) : Z :=
  Z.lor (Z.shiftr x n) (wrap (Z.shiftl x (32 - n))).
Definition complement (x : Z) : Z := Z.lxor x 4294967295.

Definition Ch (x y z : Z) : Z :=
  Z.lxor (Z.land x y) (Z.land (complement x) z).
Definition Maj (x y z : Z) : Z :=
  Z.lxor (Z.lxor (Z.land x y) (Z.land x z)) (Z.land y z).
Definition bigSigma0 (x : Z) : Z :=
  Z.lxor (Z.lxor (rotr 2 x) (rotr 13 x)) (rotr 22 x).
Definition bigSigma1 (x : Z) : Z :=
  Z.lxor (Z.lxor (rotr 6 x) (rotr 11 x)) (rotr 25 x).
Definition smallSigma0 (x : Z) : Z :=
  Z.lxor (Z.lxor (rotr 7 x) (rotr 18 x)) (Z.shiftr x 3).
Definition smallSigma1 (x : Z) : Z :=
  Z.lxor (Z.lxor (rotr 17 x) (rotr 19 x)) (Z.shiftr x 10).

(** The constants of FIPS 180-4, section 4.2.2 and 5.3.3, computed the
    way the standard defines them: the first 32 bits of the fractional
    part of the cube root (for the rounds) and of the square root (for
    the initial hash value) of the first primes. *)

Definition isPrime (n : nat) : bool :=
  (1 <? n)%nat && forallb (fun d => negb (n mod d =? 0)%nat) (seq 2 (n - 2)).

Definition primes : list Z := map Z.of_nat (filter isPrime (seq 2 310)).

(** The largest [r] below [2^bits] with [r^3 <= n]. *)
Fixpoint cubeRoot (bits : nat) (n r : Z) : Z :=
  match bits with
  | O => r
  | S k =>
      let r' := r + 2 ^ Z.of_nat k in
      cubeRoot k n (if r' * r' * r' <=? n then r' else r)
  end.

Definition roundConstants : list Z :=
  Eval vm_compute in map (fun p => wrap (cubeRoot 36 (p * 2 ^ 96) 0)) primes.

Record registers := Registers {
  ra : Z; rb : Z; rc : Z; rd : Z; re : Z; rf : Z; rg : Z; rh : Z
}.

Definition fractionOfSquareRoot (p : Z) : Z := wrap (Z.sqrt (p * 2 ^ 64)).

Definition initialRegisters : registers :=
  Eval vm_compute in
    Registers (fractionOfSquareRoot 2) (fractionOfSquareRoot 3)
              (fractionOfSquareRoot 5) (fractionOfSquareRoot 7)
              (fractionOfSquareRoot 11) (fractionOfSquareRoot 13)
              (fractionOfSquareRoot 17) (fractionOfSquareRoot 19).

(** The message schedule, newest word first: the head is W[t-1]. *)
Fixpoint extendSchedule (n : nat) (recent : list Z) : list Z :=
  match n with
  | O => recent
  | S n' =>
      let w := add (add (smallSigma1 (nth 1 recent 0)) (nth 6 recent 0))
                   (add (smallSigma0 (nth 14 recent 0)) (nth 15 recent 0)) in
      extendSchedule n' (w :: recent)
  end.

Definition schedule (block : list Z) : list Z :=
  rev (extendSchedule 48 (rev block)).

Definition round (r : registers) (kw : Z * Z) : registers :=
  let t1 := add (add (add (rh r) (bigSigma1 (re r)))
                     (add (Ch (re r) (rf r) (rg r)) (fst kw))) (snd kw) in
  let t2 := add (bigSigma0 (ra r)) (Maj (ra r) (rb r) (rc r)) in
  Registers (add t1 t2) (ra r) (rb r) (rc r) (add (rd r) t1) (re r) (rf r) (rg r).

Definition compress (r : registers) (block : list Z) : registers :=
  let r' := fold_left round (combine roundConstants (schedule block)) r in
  Registers (add (ra r) (ra r')) (add (rb r) (rb r')) (add (rc r) (rc r'))
            (add (rd r) (rd r')) (add (re r) (re r')) (add (rf r) (rf r'))
            (add (rg r) (rg r')) (add (rh r) (rh r')).

Fixpoint wordsOfBytes (bs : list byte) : list Z :=
  match bs with
  | b3 :: b2 :: b1 :: b0 :: rest => Bytes.word_of_be b3 b2 b1 b0 :: wordsOfBytes rest
  | _ => []
  end.

Definition pad (msg : list byte) : list byte :=
  let len := Z.of_nat (length msg) in
  msg ++ x80 :: repeat x00 (Z.to_nat ((55 - len) mod 64)) ++ Bytes.be64 (8 * len).

Fixpoint absorb (blocks : nat) (r : registers) (bs : list byte) : registers :=
  match blocks with
  | O => r
  | S n => absorb n (compress r (wordsOfBytes (firstn 64 bs))) (skipn 64 bs)
  end.

Definition output (r : registers) : list byte :=
  Bytes.be32 (ra r) ++ Bytes.be32 (rb r) ++ Bytes.be32 (rc r) ++ Bytes.be32 (rd r) ++
  Bytes.be32 (re r) ++ Bytes.be32 (rf r) ++ Bytes.be32 (rg r) ++ Bytes.be32 (rh r).

Definition digest (msg : list byte) : list byte :=
  let padded := pad msg in
  output (absorb (length padded / 64)%nat initialRegisters padded).

End Sha256.

Module Hmac.

Definition blockSize : nat := 64.

Definition xorByte (k : Z) (b : byte) : byte :=
  Bytes.byte_of_Z (Z.lxor k (Bytes.Z_of_byte b)).

(** A key longer than one block is hashed first; the result is filled
    with zero bytes up to the block size. *)
Definition keyBlock (key : list byte) : list byte :=
  let k := if (blockSize <? length key)%nat then Sha256.digest key else key in
  k ++ repeat x00 (blockSize - length k).

Definition sha256 (key msg : list byte) : list byte :=
  let kb := keyBlock key in
  Sha256.digest (map (xorByte 0x5c) kb ++ Sha256.digest (map (xorByte 0x36) kb ++ msg)).

End Hmac.

(** ** Exceptions as values *)

(** What a [catch] clause can observe of a thrown value: the [message]
    of an [Error] and, for errors raised by SQLite or by the multipart
    parser, their [code]. *)
Record JsError := mkError {
  message : string;
  code : option string
}.

Definition Error (msg : string) : JsError := mkError msg None.

Inductive completion (A : Type) : Type :=
| Normal (a : A)
| Throw (e : JsError).
Arguments Normal {A} a.
Arguments Throw {A} e.

#[global] Instance completion_ret : MRet completion := fun A a => Normal a.
#[global] Instance completion_bind : MBind completion := fun A B f m =>
  match m with
  | Normal a => f a
  | Throw e => Throw e
  end.

Definition isNormal {A} (c : completion A) : bool :=
  match c with Normal _ => true | Throw _ => false end.

(** ** [Date.prototype.toISOString]

    Instants are milliseconds since the epoch. The calendar date is
    computed from the day number by the usual 400-year-cycle arithmetic.
    Years 0000 to 9999 print with four digits, as ECMAScript prescribes;
    other years print with a sign and six digits. *)

Module DateTime.

Definition digitChar (d : Z) : ascii := ascii_of_nat (Z.to_nat (48 + d mod 10)).

(** [n] printed with exactly [width] decimal digits. *)
Fixpoint padded (width : nat) (n : Z) : string :=
  match width with
  | O => EmptyString
  | S w => (padded w (n / 10) ++ String (digitChar n) EmptyString)%string
  end.

Definition civilFromDays (days : Z) : Z * Z * Z :=
  let z := days + 719468 in
  let era := z / 146097 in
  let doe := z - era * 146097 in
  let yoe := (doe - doe / 1460 + doe / 36524 - doe / 146096) / 365 in
  let doy := doe - (365 * yoe + yoe / 4 - yoe / 100) in
  let mp := (5 * doy + 2) / 153 in
  let d := doy - (153 * mp + 2) / 5 + 1 in
  let m := if mp <? 10 then mp + 3 else mp - 9 in
  let y := yoe + era * 400 + (if m <=? 2 then 1 else 0) in
  (y, m, d).

Definition yearText (y : Z) : string :=
  if (0 <=? y) && (y <=? 9999) then padded 4 y
  else if y <? 0 then ("-" ++ padded 6 (- y))%string
  else ("+" ++ padded 6 y)%string.

Definition toISOString (ms : Z) : string :=
  let '(y, m, d) := civilFromDays (ms / 86400000) in
  let t := ms mod 86400000 in
  (yearText y ++ "-" ++ padded 2 m ++ "-" ++ padded 2 d ++ "T"
   ++ padded 2 (t / 3600000) ++ ":" ++ padded 2 (t / 60000 mod 60) ++ ":"
   ++ padded 2 (t / 1000 mod 60) ++ "." ++ padded 3 (t mod 1000) ++ "Z")%string.

End DateTime.

(** ** src/security/signature.ts *)

Module Signature.

Record SignatureInput := {
  method : string;
  path : string;
  clientId : string;
  timestamp : string;
  nonce : string;
  fileSha256 : string;
  fileSizeBytes : Z;
  schemaVersion : string
}.

(** [String(n)] for an integral number below 10^21: its decimal
    numeral, with a leading minus sign when negative. *)
Definition String_of_number (n : Z) : string :=
  NilZero.string_of_int (Z.to_int n).

Definition newline : string := String (ascii_of_nat 10) EmptyString.

Definition buildCanonicalString (input : SignatureInput) : string :=
  String.concat newline
    [ method input;
      path input;
      clientId input;
      timestamp input;
      nonce input;
      fileSha256 input;
      String_of_number (fileSizeBytes input);
      schemaVersion input ].

Definition hmacSha256Hex (secret canonicalString : string) : string :=
  Hex.encode (Hmac.sha256 (Bytes.utf8 secret) (Bytes.utf8 canonicalString)).

(** [/^[0-9a-f]+$/i.test(s)] *)
Definition isHexText (s : string) : bool :=
  Hex.nonEmpty s && Hex.allChars Hex.isHexChar s.

(** [crypto.timingSafeEqual]: a [RangeError] when the byte lengths
    differ; otherwise the differences of all positions are or-ed
    together, with no early exit. *)
Definition timingSafeEqual (a b : list byte) : completion bool :=
  if negb (length a =? length b)%nat then
    Throw (mkError "Input buffers must have the same byte length"
                   (Some "ERR_CRYPTO_TIMING_SAFE_EQUAL_LENGTH"))
  else
    Normal (fold_left
              (fun acc xy => Z.lor acc (Z.lxor (Bytes.Z_of_byte (fst xy))
                                               (Bytes.Z_of_byte (snd xy))))
              (combine a b) 0 =? 0).

Definition timingSafeEqualHex (expectedHex providedHex : string) : completion bool :=
  if negb (isHexText expectedHex) || negb (isHexText providedHex) then
    Normal false
  else if negb (String.length expectedHex =? String.length providedHex)%nat
          || negb (String.length expectedHex mod 2 =? 0)%nat then
    Normal false
  else
    let expected := Hex.decode expectedHex in
    let provided := Hex.decode providedHex in
    if negb (length expected =? length provided)%nat then Normal false
    else timingSafeEqual expected provided.

Definition verifySignature (secret canonicalString providedSignatureHex : string)
  : completion bool :=
  let expected := hmacSha256Hex secret canonicalString in
  timingSafeEqualHex expected (Hex.toLowerCase providedSignatureHex).

Definition sha256Hex (payload : list byte) : string :=
  Hex.encode (Sha256.digest payload).

Definition hashInviteCode (inviteCode : string) : string :=
  Hex.encode (Sha256.digest (Bytes.utf8 inviteCode)).

(** [randomToken(prefix, bytes)], given the outcome [random] of
    [crypto.randomBytes(bytes)]. *)
Definition randomToken (prefix : string) (random : list byte) : string :=
  (prefix ++ Hex.encode random)%string.

(** *** Vocabulary for statements about signed tuples *)

(** A size as the route passes it: a positive integer (the metadata
    schema demands one) within the range where a JavaScript number is
    an exact integer, so that [String] prints all of its digits. *)
Definition validInput (input : SignatureInput) : Prop :=
  0 < fileSizeBytes input <= 9007199254740991.

Inductive FieldName : Type :=
| Method | Path | ClientId | Timestamp | Nonce | FileSha256 | FileSizeBytes
| SchemaVersion.

(** The two tuples carry a different value in field [f]... *)
Definition differAt (f : FieldName) (a b : SignatureInput) : Prop :=
  match f with
  | Method => method a <> method b
  | Path => path a <> path b
  | ClientId => clientId a <> clientId b
  | Timestamp => timestamp a <> timestamp b
  | Nonce => nonce a <> nonce b
  | FileSha256 => fileSha256 a <> fileSha256 b
  | FileSizeBytes => fileSizeBytes a <> fileSizeBytes b
  | SchemaVersion => schemaVersion a <> schemaVersion b
  end.

(** ... and the same value in every other field. *)
Definition agreeOutside (f : FieldName) (a b : SignatureInput) : Prop :=
  (f = Method \/ method a = method b)
  /\ (f = Path \/ path a = path b)
  /\ (f = ClientId \/ clientId a = clientId b)
  /\ (f = Timestamp \/ timestamp a = timestamp b)
  /\ (f = Nonce \/ nonce a = nonce b)
  /\ (f = FileSha256 \/ fileSha256 a = fileSha256 b)
  /\ (f = FileSizeBytes \/ fileSizeBytes a = fileSizeBytes b)
  /\ (f = SchemaVersion \/ schemaVersion a = schemaVersion b).

End Signature.
(** ** Values and library functions supplied by the platform *)

(** A JavaScript number as far as the schemas look at it: an integral
    value, or anything else ([NaN], an infinity, a fraction). *)
Inductive jsnumber : Type :=
| Integral (z : Z)
| NonIntegral.

(** A parsed JSON document. Object members are kept in source order and
    a name is looked up at its last occurrence, as [JSON.parse] does. *)
#[local] Set Warnings "-register-all".
Inductive json : Type :=
| JNull
| JBool (b : bool)
| JNumber (n : jsnumber)
| JString (s : string)
| JArray (items : list json)
| JObject (members : list (string * json)).

Fixpoint member (name : string) (members : list (string * json)) : option json :=
  match members with
  | [] => None
  | (k, v) :: rest =>
      match member name rest with
      | Some later => Some later
      | None => if String.eqb k name then Some v else None
      end
  end.

(** Library behaviour the repository relies on but does not contain. *)
Record Platform := {
  (** [z.string().uuid()] of the zod version in use *)
  zodUuid : string -> bool;
  (** [new Date(text).getTime()]; [None] stands for [NaN] *)
  dateGetTime : string -> option Z;
  (** [JSON.parse]; [None] stands for a [SyntaxError] *)
  JSON_parse : string -> option json;
  (** [Number(value)], the coercion behind [z.coerce.number()] *)
  Number_coerce : json -> jsnumber
}.

(** [z.string().min(1)] applied to an object member. *)
Definition zodNonEmptyString (v : option json) : option string :=
  match v with
  | Some (JString s) => if Hex.nonEmpty s then Some s else None
  | _ => None
  end.

(** ** The durable store (migrations/001_init.sql, src/db.ts) *)

Module ClientRecord.
Record t := mk {
  client_id : string;
  client_secret : string;
  install_id : option string;
  active : Z;
  created_at : string;
  revoked_at : option string
}.
End ClientRecord.

Module InviteCodeRecord.
Record t := mk {
  code_hash : string;
  max_uses : Z;
  used_count : Z;
  expires_at : option string;
  created_at : string;
  created_by : option string
}.
End InviteCodeRecord.

Module NonceRow.
Record t := mk {
  client_id : string;
  nonce : string;
  seen_at : string;
  expires_at : string
}.
End NonceRow.

Module AuditRow.
Record t := mk {
  request_id : string;
  client_id : option string;
  status : string;
  error_code : option string;
  ip : option string;
  created_at : string
}.
End AuditRow.

Record Database := mkDatabase {
  clients : gmap string ClientRecord.t;
  invite_codes : gmap string InviteCodeRecord.t;
  nonces : gmap (string * string) NonceRow.t;
  upload_audit : gmap string AuditRow.t
}.

Definition withClients (db : Database) (m : gmap string ClientRecord.t) : Database :=
  mkDatabase m (invite_codes db) (nonces db) (upload_audit db).
Definition withInviteCodes (db : Database) (m : gmap string InviteCodeRecord.t) : Database :=
  mkDatabase (clients db) m (nonces db) (upload_audit db).
Definition withNonces (db : Database) (m : gmap (string * string) NonceRow.t) : Database :=
  mkDatabase (clients db) (invite_codes db) m (upload_audit db).
Definition withUploadAudit (db : Database) (m : gmap string AuditRow.t) : Database :=
  mkDatabase (clients db) (invite_codes db) (nonces db) m.

(** The error better-sqlite3 throws when an INSERT repeats a primary key. *)
Definition primaryKeyViolation (what : string) : JsError :=
  mkError ("UNIQUE constraint failed: " ++ what)%string
          (Some "SQLITE_CONSTRAINT_PRIMARYKEY").

(** [db.transaction(fn)()]: the changes of [fn] are committed when it
    returns and rolled back when it throws; the exception is passed on. *)
Definition transaction {A} (fn : Database -> completion A * Database)
    (db : Database) : completion A * Database :=
  match fn db with
  | (Normal a, db') => (Normal a, db')
  | (Throw e, _) => (Throw e, db)
  end.

(** API replies (src/types/api.ts) *)

Inductive ApiErrorCode : Type :=
| INVITE_INVALID | INVITE_EXPIRED | INVITE_ALREADY_USED | RATE_LIMITED
| AUTH_FAILED | NONCE_REPLAY | PAYLOAD_INVALID | FILE_TOO_LARGE
| DISCORD_FORWARD_FAILED.

Definition errorCodeText (c : ApiErrorCode) : string :=
  match c with
  | INVITE_INVALID => "INVITE_INVALID"
  | INVITE_EXPIRED => "INVITE_EXPIRED"
  | INVITE_ALREADY_USED => "INVITE_ALREADY_USED"
  | RATE_LIMITED => "RATE_LIMITED"
  | AUTH_FAILED => "AUTH_FAILED"
  | NONCE_REPLAY => "NONCE_REPLAY"
  | PAYLOAD_INVALID => "PAYLOAD_INVALID"
  | FILE_TOO_LARGE => "FILE_TOO_LARGE"
  | DISCORD_FORWARD_FAILED => "DISCORD_FORWARD_FAILED"
  end.

Inductive ResponseBody : Type :=
| ApiErrorResponse (errorCode : ApiErrorCode) (requestId : option string)
| RedeemSuccessResponse (clientId clientSecret signatureVersion : string)
| UploadSuccessResponse (requestId discordMessageId verifiedFileSha256 : string).

Record Reply := mkReply {
  statusCode : Z;
  body : ResponseBody
}.

(** ** src/security/nonces.ts *)

Module Nonces.

Definition isTimestampWithinSkew
    (timestampSeconds nowSeconds maxClockSkewSeconds : Z) : bool :=
  Z.abs (nowSeconds - timestampSeconds) <=? maxClockSkewSeconds.

Definition hasSeenNonce (db : Database) (clientId nonce : string) : bool :=
  match nonces db !! (clientId, nonce) with
  | Some _ => true
  | None => false
  end.

Definition persistNonce (db : Database)
    (clientId nonce seenAtIso expiresAtIso : string) : completion Database :=
  match nonces db !! (clientId, nonce) with
  | Some _ => Throw (primaryKeyViolation "nonces.client_id, nonces.nonce")
  | None =>
      Normal (withNonces db
                (<[(clientId, nonce) :=
                     NonceRow.mk clientId nonce seenAtIso expiresAtIso]> (nonces db)))
  end.

(** TEXT columns compare bytewise, which is [String.leb]. *)
Definition isExpiredRow (nowIso : string) (row : NonceRow.t) : bool :=
  String.leb (NonceRow.expires_at row) nowIso.

Definition cleanupExpiredNonces (db : Database) (nowIso : string) : Z * Database :=
  let gone := filter (fun kv => isExpiredRow nowIso (snd kv) = true) (nonces db) in
  let kept := filter (fun kv => isExpiredRow nowIso (snd kv) = false) (nonces db) in
  (Z.of_nat (size gone), withNonces db kept).

End Nonces.

(** ** src/routes/redeem.ts *)

Module Redeem.

Section Handler.
Context (P : Platform).

Record RedeemBody := {
  inviteCode : string;
  installId : string;
  modVersion : string
}.

(** [RedeemBodySchema.safeParse(request.body)]; [None] when
    [success] is false. An absent body is [JNull]. *)
Definition RedeemBodySchema (requestBody : json) : option RedeemBody :=
  match requestBody with
  | JObject members =>
      code ← zodNonEmptyString (member "inviteCode" members);
      install ← match member "installId" members with
                | Some (JString s) => if zodUuid P s then Some s else None
                | _ => None
                end;
      version ← zodNonEmptyString (member "modVersion" members);
      Some {| inviteCode := code; installId := install; modVersion := version |}
  | _ => None
  end.

Definition apiError (errorCode : ApiErrorCode) : ResponseBody :=
  ApiErrorResponse errorCode None.

(** What one request draws from its environment: the clock reading of
    [new Date()] and the outcomes of the two [crypto.randomBytes] calls. *)
Record Env := {
  now : Z;
  randomClient : list byte;
  randomSecret : list byte
}.

(** [invite.expires_at && new Date(invite.expires_at).getTime() <= now.getTime()].
    A null or empty text is falsy; a comparison with [NaN] is false. *)
Definition isExpired (invite : InviteCodeRecord.t) (nowMs : Z) : bool :=
  match InviteCodeRecord.expires_at invite with
  | None => false
  | Some text =>
      Hex.nonEmpty text &&
      match dateGetTime P text with
      | Some t => t <=? nowMs
      | None => false
      end
  end.

(** The values captured by the transaction closure. *)
Record Pending := {
  codeHash : string;
  clientId : string;
  clientSecret : string;
  pendingInstallId : string;
  nowIso : string
}.

(** Lines 48-50 and 75-76: what the handler computes from the parsed
    body, the clock and the random source. *)
Definition pendingFor (env : Env) (parsed : RedeemBody) : Pending :=
  {| codeHash := Signature.hashInviteCode (inviteCode parsed);
     clientId := Signature.randomToken "relay-client-" (randomClient env);
     clientSecret := Signature.randomToken "relay-secret-" (randomSecret env);
     pendingInstallId := installId parsed;
     nowIso := DateTime.toISOString (now env) |}.

(** Lines 43-76: validation, lookup and the two unguarded checks. *)
Definition lookupInvite (db : Database) (env : Env) (requestBody : json)
  : Reply + Pending :=
  match RedeemBodySchema requestBody with
  | None => inl (mkReply 400 (apiError INVITE_INVALID))
  | Some parsed =>
      let p := pendingFor env parsed in
      match invite_codes db !! codeHash p with
      | None => inl (mkReply 400 (apiError INVITE_INVALID))
      | Some invite =>
          if isExpired invite (now env) then
            inl (mkReply 410 (apiError INVITE_EXPIRED))
          else if InviteCodeRecord.used_count invite >=? InviteCodeRecord.max_uses invite then
            inl (mkReply 409 (apiError INVITE_ALREADY_USED))
          else inr p
      end
  end.

(** [SET used_count = used_count + 1] on one row. *)
Definition countUse (invite : InviteCodeRecord.t) : InviteCodeRecord.t :=
  InviteCodeRecord.mk
    (InviteCodeRecord.code_hash invite)
    (InviteCodeRecord.max_uses invite)
    (InviteCodeRecord.used_count invite + 1)
    (InviteCodeRecord.expires_at invite)
    (InviteCodeRecord.created_at invite)
    (InviteCodeRecord.created_by invite).

(** [UPDATE invite_codes SET used_count = used_count + 1
     WHERE code_hash = ? AND used_count < max_uses]: the number of rows
    changed and the resulting store. *)
Definition guardedIncrement (db : Database) (hash : string) : Z * Database :=
  match invite_codes db !! hash with
  | Some invite =>
      if InviteCodeRecord.used_count invite <? InviteCodeRecord.max_uses invite then
        (1, withInviteCodes db (<[hash := countUse invite]> (invite_codes db)))
      else (0, db)
  | None => (0, db)
  end.

(** The row of [INSERT INTO clients (...) VALUES (?, ?, ?, 1, ?, NULL)]. *)
Definition credentialRow (p : Pending) : ClientRecord.t :=
  ClientRecord.mk (clientId p) (clientSecret p) (Some (pendingInstallId p)) 1 (nowIso p) None.

Definition insertClient (db : Database) (p : Pending) : completion Database :=
  match clients db !! clientId p with
  | Some _ => Throw (primaryKeyViolation "clients.client_id")
  | None => Normal (withClients db (<[clientId p := credentialRow p]> (clients db)))
  end.

(** The body of [tx], lines 78-102. *)
Definition txBody (p : Pending) (db : Database) : completion unit * Database :=
  let '(changes, db1) := guardedIncrement db (codeHash p) in
  if negb (changes =? 1) then (Throw (Error "INVITE_ALREADY_USED"), db1)
  else
    match insertClient db1 p with
    | Normal db2 => (Normal tt, db2)
    | Throw e => (Throw e, db1)
    end.

Definition tx (p : Pending) (db : Database) : completion unit * Database :=
  transaction (txBody p) db.

(** Lines 104-121: the [try]/[catch] around [tx()] and the success reply.
    An exception that is not the sentinel is thrown on. *)
Definition conclude (p : Pending) (outcome : completion unit) : completion Reply :=
  match outcome with
  | Normal _ => Normal (mkReply 200 (RedeemSuccessResponse (clientId p) (clientSecret p) "v1"))
  | Throw e =>
      if String.eqb (message e) "INVITE_ALREADY_USED" then
        Normal (mkReply 409 (apiError INVITE_ALREADY_USED))
      else Throw e
  end.

(** A body the schema rejects, in the words of the route's contract:
    it is not an object, or [inviteCode] is missing or empty, or
    [installId] is not a UUID, or [modVersion] is missing or empty. *)
Definition structurallyInvalid (requestBody : json) : Prop :=
  match requestBody with
  | JObject members =>
      (~ exists s, member "inviteCode" members = Some (JString s) /\ s <> EmptyString)
      \/ (~ exists s, member "installId" members = Some (JString s) /\ zodUuid P s = true)
      \/ (~ exists s, member "modVersion" members = Some (JString s) /\ s <> EmptyString)
  | _ => True
  end.

(** The handler run without interruption. *)
Definition redeem (db : Database) (env : Env) (requestBody : json)
  : completion Reply * Database :=
  match lookupInvite db env requestBody with
  | inl reply => (Normal reply, db)
  | inr p =>
      let '(outcome, db') := tx p db in
      (conclude p outcome, db')
  end.

(** *** Requests in flight against one store

    The SELECT and the transaction are two separate statements against
    the store; between them another request (of this or of another
    process on the same database file) may run. A request is therefore
    two atomic steps. *)

Inductive Thread : Type :=
| Arrived (env : Env) (requestBody : json)
| InTransaction (p : Pending)
| Finished (result : completion Reply).

Record System := mkSystem {
  store : Database;
  threads : list Thread
}.

Definition stepThread (i : nat) (s : System) : System :=
  match threads s !! i with
  | Some (Arrived env requestBody) =>
      let next := match lookupInvite (store s) env requestBody with
                  | inl reply => Finished (Normal reply)
                  | inr p => InTransaction p
                  end in
      mkSystem (store s) (<[i := next]> (threads s))
  | Some (InTransaction p) =>
      let '(outcome, db') := tx p (store s) in
      mkSystem db' (<[i := Finished (conclude p outcome)]> (threads s))
  | Some (Finished _) | None => s
  end.

(** Running the threads in the order a schedule names them. *)
Definition run (schedule : list nat) (s : System) : System :=
  fold_left (fun acc i => stepThread i acc) schedule s.

Definition isFinished (t : Thread) : bool :=
  match t with Finished _ => true | _ => false end.

Definition allFinished (s : System) : bool := forallb isFinished (threads s).

(** Two ledgers to compare: the uses counted over all invites and the
    credentials on record. *)
Definition totalUsed (db : Database) : Z :=
  map_fold (fun _ invite acc => acc + InviteCodeRecord.used_count invite) 0
           (invite_codes db).

Definition issued (db : Database) : Z := Z.of_nat (size (clients db)).

Definition success (p : Pending) : Reply :=
  mkReply 200 (RedeemSuccessResponse (clientId p) (clientSecret p) "v1").

Definition alreadyUsed : Reply := mkReply 409 (apiError INVITE_ALREADY_USED).

(** The store after the transaction of [p] committed against [invite]. *)
Definition committed (p : Pending) (invite : InviteCodeRecord.t) (db : Database)
  : Database :=
  withClients
    (withInviteCodes db (<[codeHash p := countUse invite]> (invite_codes db)))
    (<[clientId p := credentialRow p]> (clients db)).

(** How a later store relates to an earlier one: every invite is still
    there with the same cap and a count that did not decrease and that
    is within the cap if it was; and the credentials on record grew by
    exactly as much as the uses counted. *)
Definition evolves (db db' : Database) : Prop :=
  (forall h invite,
      invite_codes db !! h = Some invite ->
      exists invite',
        invite_codes db' !! h = Some invite'
        /\ InviteCodeRecord.max_uses invite' = InviteCodeRecord.max_uses invite
        /\ InviteCodeRecord.used_count invite <= InviteCodeRecord.used_count invite'
        /\ (InviteCodeRecord.used_count invite <= InviteCodeRecord.max_uses invite ->
            InviteCodeRecord.used_count invite' <= InviteCodeRecord.max_uses invite'))
  /\ issued db' - totalUsed db' = issued db - totalUsed db.

(** The configurations two requests [1] and [2] racing for [invite]
    can be in: nobody has committed yet, or one of them has and the
    other has not finished or was turned away. *)
Inductive Race (db : Database) (invite : InviteCodeRecord.t)
    (env1 env2 : Env) (body1 body2 : json) (p1 p2 : Pending) : System -> Prop :=
| race_open t1 t2 :
    t1 = Arrived env1 body1 \/ t1 = InTransaction p1 ->
    t2 = Arrived env2 body2 \/ t2 = InTransaction p2 ->
    Race db invite env1 env2 body1 body2 p1 p2 (mkSystem db [t1; t2])
| race_first_won t2 :
    t2 = Arrived env2 body2 \/ t2 = InTransaction p2
    \/ t2 = Finished (Normal alreadyUsed) ->
    Race db invite env1 env2 body1 body2 p1 p2
         (mkSystem (committed p1 invite db) [Finished (Normal (success p1)); t2])
| race_second_won t1 :
    t1 = Arrived env1 body1 \/ t1 = InTransaction p1
    \/ t1 = Finished (Normal alreadyUsed) ->
    Race db invite env1 env2 body1 body2 p1 p2
         (mkSystem (committed p2 invite db) [t1; Finished (Normal (success p2))]).

End Handler.

End Redeem.

(** ** src/routes/upload.ts *)

Module Upload.

(** The part of [AppConfig] the route reads. *)
Record AppConfig := {
  discordWebhookUrl : string;
  maxUploadBytes : Z;
  maxClockSkewSeconds : Z;
  nonceTtlSeconds : Z
}.

Record UploadMetadata := {
  schemaVersion : string;
  modVersion : string;
  aiModelVersion : string;
  playerName : string;
  playerUuid : string;
  clientTimestamp : string;
  fileSha256 : string;
  fileSizeBytes : Z
}.

Record ParsedUpload := {
  metadata : UploadMetadata;
  csvBuffer : list byte;
  verifiedFileSha256 : string
}.

Record ForwardUploadInput := {
  fwdRequestId : string;
  fwdMetadata : UploadMetadata;
  csvData : list byte;
  fwdVerifiedFileSha256 : string
}.

(** The validated headers, named after the header they come from. *)
Record UploadHeaders := {
  x_scamscreener_client_id : string;
  x_scamscreener_timestamp : string;
  x_scamscreener_nonce : string;
  x_scamscreener_signature : string;
  x_scamscreener_signature_version : string
}.

(** [/^\d+$/] *)
Definition isDecimalText (s : string) : bool :=
  Hex.nonEmpty s && Hex.allChars Hex.isDigitChar s.

(** [/^[a-fA-F0-9]{64}$/] *)
Definition isHex64 (s : string) : bool :=
  (String.length s =? 64)%nat && Hex.allChars Hex.isHexChar s.

(** [Number(text)] for a text of decimal digits. *)
Definition Number_of_decimal (s : string) : Z :=
  fold_left (fun acc c => 10 * acc + (Z.of_nat (nat_of_ascii c) - 48))
            (list_ascii_of_string s) 0.

(** One item of [request.parts()]. A file part delivers its chunks and
    may then fail (the transport throws when its own limits are hit). *)
Inductive Part : Type :=
| Field (fieldname value : string)
| FilePart (fieldname : string) (chunks : list (list byte)) (failure : option JsError).

Record Multipart := {
  parts : list Part;
  streamFailure : option JsError
}.

Record Request := {
  headers : gmap string string;
  ip : string;
  isMultipart : bool;
  multipart : Multipart
}.

(** The statements the route executes against the store. *)
Inductive DbCall : Type :=
| SelectClient | HasSeenNonce | PersistNonce | CleanupExpiredNonces | InsertAudit.

(** What one request draws from its environment: the random request
    id, four clock readings, the behaviour of the forwarder, and for
    each statement whether the storage layer itself fails on it (disk,
    lock, connection), with the error it throws. *)
Record Env := {
  randomUUID : string;
  dateNow : Z;
  commitTime : Z;
  cleanupTime : Z;
  auditTime : Z;
  storageFault : DbCall -> option JsError;
  discordForwarder : string -> ForwardUploadInput -> completion (option string)
}.

(** What the handler does that is visible outside the store. *)
Inductive Event : Type :=
| AuditWritten (row : AuditRow.t)
| ForwarderCalled (input : ForwardUploadInput)
| ReplySent (reply : Reply).

Record World := mkWorld {
  db : Database;
  trace : list Event
}.

(** Handler code: a state transformer that may throw. An exception
    leaves the world as it was when it was thrown. *)
Definition M (A : Type) : Type := World -> completion A * World.

#[export] Instance M_ret : MRet M := fun A a w => (Normal a, w).
#[export] Instance M_bind : MBind M := fun A B f m w =>
  match m w with
  | (Normal a, w') => f a w'
  | (Throw e, w') => (Throw e, w')
  end.

#[export] Instance M_fmap : FMap M := fun A B f m w =>
  match m w with
  | (Normal a, w') => (Normal (f a), w')
  | (Throw e, w') => (Throw e, w')
  end.

Definition throw {A} (e : JsError) : M A := fun w => (Throw e, w).

Definition tryCatch {A} (m : M A) (handler : JsError -> M A) : M A := fun w =>
  match m w with
  | (Normal a, w') => (Normal a, w')
  | (Throw e, w') => handler e w'
  end.

Definition emit (ev : Event) : M unit := fun w =>
  (Normal tt, mkWorld (db w) (trace w ++ [ev])).

(** Executing one statement: the storage layer may fail on it;
    otherwise the statement runs on the current store. *)
Definition statement {A} (env : Env) (call : DbCall)
    (run : Database -> completion (A * Database)) : M A := fun w =>
  match storageFault env call with
  | Some e => (Throw e, w)
  | None =>
      match run (db w) with
      | Normal (a, db') => (Normal a, mkWorld db' (trace w))
      | Throw e => (Throw e, w)
      end
  end.

(** Other requests running while this one awaits something. *)
Definition interleave (others : Database -> Database) : M unit := fun w =>
  (Normal tt, mkWorld (others (db w)) (trace w)).

(** Two stores that a request with id [rid] cannot tell apart: the
    same credentials, the same nonces, and the id is on record in both
    or in neither. *)
Definition sameView (rid : string) (d1 d2 : Database) : Prop :=
  clients d1 = clients d2
  /\ nonces d1 = nonces d2
  /\ (upload_audit d1 !! rid = None <-> upload_audit d2 !! rid = None).

(** Handler code that behaves alike in worlds it cannot tell apart. *)
Definition respects {A} (rid : string) (m : M A) : Prop :=
  forall w1 w2,
    trace w1 = trace w2 -> sameView rid (db w1) (db w2) ->
    fst (m w1) = fst (m w2)
    /\ trace (snd (m w1)) = trace (snd (m w2))
    /\ sameView rid (db (snd (m w1))) (db (snd (m w2))).

Section Handler.
Context (P : Platform).

(** [UploadHeadersSchema.safeParse(request.headers)] *)
Definition UploadHeadersSchema (hs : gmap string string) : option UploadHeaders :=
  clientId ← hs !! "x-scamscreener-client-id";
  timestamp ← hs !! "x-scamscreener-timestamp";
  nonce ← hs !! "x-scamscreener-nonce";
  signature ← hs !! "x-scamscreener-signature";
  version ← hs !! "x-scamscreener-signature-version";
  if Hex.nonEmpty clientId && isDecimalText timestamp && zodUuid P nonce
     && isHex64 signature && String.eqb version "v1"
  then Some {| x_scamscreener_client_id := clientId;
               x_scamscreener_timestamp := timestamp;
               x_scamscreener_nonce := nonce;
               x_scamscreener_signature := signature;
               x_scamscreener_signature_version := version |}
  else None.

(** The headers the schema accepts, spelled out: all five present,
    client id non-empty, timestamp a decimal numeral, nonce a UUID,
    signature 64 hexadecimal characters of either case, version [v1]. *)
Definition wellFormedHeaders (hs : gmap string string) : Prop :=
  exists clientId timestamp nonce signature,
    hs !! "x-scamscreener-client-id" = Some clientId /\ clientId <> EmptyString
    /\ hs !! "x-scamscreener-timestamp" = Some timestamp /\ isDecimalText timestamp = true
    /\ hs !! "x-scamscreener-nonce" = Some nonce /\ zodUuid P nonce = true
    /\ hs !! "x-scamscreener-signature" = Some signature /\ isHex64 signature = true
    /\ hs !! "x-scamscreener-signature-version" = Some "v1".

(** Well-formedness as the design document words it: four headers, the
    signature being 64 lower-case hexadecimal characters. *)
Definition wellFormedAsDocumented (hs : gmap string string) : Prop :=
  exists clientId timestamp nonce signature,
    hs !! "x-scamscreener-client-id" = Some clientId /\ clientId <> EmptyString
    /\ hs !! "x-scamscreener-timestamp" = Some timestamp /\ isDecimalText timestamp = true
    /\ hs !! "x-scamscreener-nonce" = Some nonce /\ zodUuid P nonce = true
    /\ hs !! "x-scamscreener-signature" = Some signature
    /\ String.length signature = 64%nat
    /\ Hex.allChars Hex.isLowerHexChar signature = true.

(** [UploadMetadataSchema.safeParse(value)] *)
Definition UploadMetadataSchema (value : json) : option UploadMetadata :=
  match value with
  | JObject members =>
      sv ← match member "schemaVersion" members with
           | Some (JString s) => if String.eqb s "1" then Some s else None
           | _ => None
           end;
      mv ← zodNonEmptyString (member "modVersion" members);
      ai ← zodNonEmptyString (member "aiModelVersion" members);
      pn ← zodNonEmptyString (member "playerName" members);
      pu ← zodNonEmptyString (member "playerUuid" members);
      ct ← zodNonEmptyString (member "clientTimestamp" members);
      sha ← match member "fileSha256" members with
            | Some (JString s) => if isHex64 s then Some (Hex.toLowerCase s) else None
            | _ => None
            end;
      size ← match member "fileSizeBytes" members with
             | Some v =>
                 match Number_coerce P v with
                 | Integral z => if 0 <? z then Some z else None
                 | NonIntegral => None
                 end
             | None => None
             end;
      Some {| schemaVersion := sv; modVersion := mv; aiModelVersion := ai;
              playerName := pn; playerUuid := pu; clientTimestamp := ct;
              fileSha256 := sha; fileSizeBytes := size |}
  | _ => None
  end.

Definition uploadError (errorCode : ApiErrorCode) (requestId : string) : ResponseBody :=
  ApiErrorResponse errorCode (Some requestId).

(** *** readMultipartPayload *)

Record Intake := mkIntake {
  metadataRaw : option string;
  collected : option (list byte);
  csvBytes : Z;
  csvChunks : list (list byte)
}.

Fixpoint readChunks (limit : Z) (chunks : list (list byte)) (acc : Intake)
  : completion Intake :=
  match chunks with
  | [] => Normal acc
  | chunk :: rest =>
      let total := csvBytes acc + Z.of_nat (length chunk) in
      if total >? limit then Throw (Error "FILE_TOO_LARGE")
      else readChunks limit rest
             (mkIntake (metadataRaw acc) (collected acc) total (csvChunks acc ++ [chunk]))
  end.

Definition readPart (limit : Z) (acc : Intake) (part : Part) : completion Intake :=
  match part with
  | Field fieldname value =>
      if String.eqb fieldname "metadata"
      then Normal (mkIntake (Some value) (collected acc) (csvBytes acc) (csvChunks acc))
      else Normal acc
  | FilePart fieldname chunks failure =>
      if negb (String.eqb fieldname "training_file") then
        match failure with
        | Some e => Throw e
        | None => Normal acc
        end
      else
        acc' ← readChunks limit chunks acc;
        match failure with
        | Some e => Throw e
        | None =>
            Normal (mkIntake (metadataRaw acc') (Some (concat (csvChunks acc')))
                             (csvBytes acc') (csvChunks acc'))
        end
  end.

Fixpoint readParts (limit : Z) (ps : list Part) (acc : Intake) : completion Intake :=
  match ps with
  | [] => Normal acc
  | part :: rest => acc' ← readPart limit acc part; readParts limit rest acc'
  end.

Definition payloadInvalid {A} : completion A := Throw (Error "PAYLOAD_INVALID").

Definition readMultipartPayload (request : Request) (limit : Z)
  : completion ParsedUpload :=
  acc ← readParts limit (parts (multipart request)) (mkIntake None None 0 []);
  acc ← match streamFailure (multipart request) with
        | Some e => Throw e
        | None => Normal acc
        end;
  match metadataRaw acc, collected acc with
  | Some raw, Some buffer =>
      if negb (Hex.nonEmpty raw) then payloadInvalid
      else
        match JSON_parse P raw with
        | None => payloadInvalid
        | Some parsedMetadataJson =>
            match UploadMetadataSchema parsedMetadataJson with
            | None => payloadInvalid
            | Some md =>
                if Z.of_nat (length buffer) >? limit then Throw (Error "FILE_TOO_LARGE")
                else if negb (fileSizeBytes md =? Z.of_nat (length buffer)) then payloadInvalid
                else
                  let verified := Signature.sha256Hex buffer in
                  if negb (String.eqb verified (fileSha256 md)) then payloadInvalid
                  else Normal {| metadata := md; csvBuffer := buffer;
                                 verifiedFileSha256 := verified |}
            end
        end
  | _, _ => payloadInvalid
  end.

(** *** The route handler *)

Section Request.
Context (config : AppConfig) (env : Env) (request : Request).

Definition requestId : string := ("req-" ++ randomUUID env)%string.

Definition send (reply : Reply) : M Reply :=
  emit (ReplySent reply);; mret reply.

Definition auditRow (clientId : option string) (status : string)
    (errorCode : option ApiErrorCode) : AuditRow.t :=
  AuditRow.mk requestId clientId status (errorCodeText <$> errorCode)
    (Some (ip request)) (DateTime.toISOString (auditTime env)).

Definition writeAuditRow (clientId : option string) (status : string)
    (errorCode : option ApiErrorCode) : M unit :=
  let row := auditRow clientId status errorCode in
  statement env InsertAudit (fun d =>
    match upload_audit d !! requestId with
    | Some _ => Throw (primaryKeyViolation "upload_audit.request_id")
    | None => Normal (tt, withUploadAudit d (<[requestId := row]> (upload_audit d)))
    end);;
  emit (AuditWritten row).

Definition sendError (statusCode : Z) (errorCode : ApiErrorCode)
    (clientId : option string) : M Reply :=
  writeAuditRow clientId "REJECTED" (Some errorCode);;
  send (mkReply statusCode (uploadError errorCode requestId)).

(** What the handler holds when it starts to await the payload. *)
Record Identified := {
  validHeaders : UploadHeaders;
  client : ClientRecord.t
}.

(** What it holds while it awaits the forwarder. *)
Record Forwarding := {
  sender : Identified;
  parsedUpload : ParsedUpload;
  forwarded : completion (option string)
}.

Definition clientIdForAudit (h : UploadHeaders) : option string :=
  Some (x_scamscreener_client_id h).

(** Lines 199-284, up to [await readMultipartPayload]. *)
Definition identify : M (Reply + Identified) :=
  match UploadHeadersSchema (headers request) with
  | None => inl <$> sendError 401 AUTH_FAILED None
  | Some h =>
      let timestampSeconds := Number_of_decimal (x_scamscreener_timestamp h) in
      if negb (Nonces.isTimestampWithinSkew timestampSeconds (dateNow env / 1000)
                 (maxClockSkewSeconds config))
      then inl <$> sendError 401 AUTH_FAILED (clientIdForAudit h)
      else
        found ← statement env SelectClient (fun d =>
                  Normal (clients d !! x_scamscreener_client_id h, d));
        match found with
        | None => inl <$> sendError 401 AUTH_FAILED (clientIdForAudit h)
        | Some c =>
            if negb (ClientRecord.active c =? 1)
            then inl <$> sendError 401 AUTH_FAILED (clientIdForAudit h)
            else
              seen ← statement env HasSeenNonce (fun d =>
                       Normal (Nonces.hasSeenNonce d (x_scamscreener_client_id h)
                                 (x_scamscreener_nonce h), d));
              if (seen : bool)
              then inl <$> sendError 409 NONCE_REPLAY (clientIdForAudit h)
              else if negb (isMultipart request)
              then inl <$> sendError 422 PAYLOAD_INVALID (clientIdForAudit h)
              else mret (inr {| validHeaders := h; client := c |})
        end
  end.

(** The canonical string rebuilt from the validated headers and the
    verified metadata (lines 322-331). *)
Definition canonicalFor (h : UploadHeaders) (upload : ParsedUpload) : string :=
  Signature.buildCanonicalString
    {| Signature.method := "POST";
       Signature.path := "/api/v1/training-uploads";
       Signature.clientId := x_scamscreener_client_id h;
       Signature.timestamp := x_scamscreener_timestamp h;
       Signature.nonce := x_scamscreener_nonce h;
       Signature.fileSha256 := fileSha256 (metadata upload);
       Signature.fileSizeBytes := fileSizeBytes (metadata upload);
       Signature.schemaVersion := schemaVersion (metadata upload) |}.

Definition forwardInput (upload : ParsedUpload) : ForwardUploadInput :=
  {| fwdRequestId := requestId;
     fwdMetadata := metadata upload;
     csvData := csvBuffer upload;
     fwdVerifiedFileSha256 := verifiedFileSha256 upload |}.

(** Lines 351-369: the replay commit. [None] when the row went in,
    the rejection that was sent when [persistNonce] threw. *)
Definition commitNonce (h : UploadHeaders) : M (option Reply) :=
  let nowIso := DateTime.toISOString (commitTime env) in
  let expiresAtIso :=
    DateTime.toISOString (commitTime env + nonceTtlSeconds config * 1000) in
  tryCatch
    (statement env PersistNonce (fun d =>
       d' ← Nonces.persistNonce d (x_scamscreener_client_id h)
              (x_scamscreener_nonce h) nowIso expiresAtIso;
       Normal (tt, d'));;
     mret None)
    (fun _ => Some <$> sendError 409 NONCE_REPLAY (clientIdForAudit h)).

(** Lines 371-375: cleanup whose failure is logged and dropped. *)
Definition sweep : M unit :=
  tryCatch
    (statement env CleanupExpiredNonces (fun d =>
       Normal (Nonces.cleanupExpiredNonces d (DateTime.toISOString (cleanupTime env))));;
     mret tt)
    (fun _ => mret tt).

(** Lines 286-384: the payload has been read; signature check, replay
    commit, opportunistic cleanup, and the call of the forwarder. *)
Definition verifyAndCommit (s : Identified) : M (Reply + Forwarding) :=
  let h := validHeaders s in
  match readMultipartPayload request (maxUploadBytes config) with
  | Throw error =>
      if String.eqb (message error) "FILE_TOO_LARGE"
         || bool_decide (code error = Some "FST_REQ_FILE_TOO_LARGE")
      then inl <$> sendError 413 FILE_TOO_LARGE (clientIdForAudit h)
      else inl <$> sendError 422 PAYLOAD_INVALID (clientIdForAudit h)
  | Normal upload =>
      let canonical := canonicalFor h upload in
      let providedSignature := Hex.toLowerCase (x_scamscreener_signature h) in
      match Signature.verifySignature (ClientRecord.client_secret (client s))
              canonical providedSignature with
      | Throw e => throw e
      | Normal false => inl <$> sendError 401 AUTH_FAILED (clientIdForAudit h)
      | Normal true =>
          refused ← commitNonce h;
          match refused with
          | Some reply => mret (inl reply)
          | None =>
              sweep;;
              emit (ForwarderCalled (forwardInput upload));;
              mret (inr {| sender := s; parsedUpload := upload;
                           forwarded := discordForwarder env (discordWebhookUrl config)
                                          (forwardInput upload) |})
          end
      end
  end.

(** Lines 385-407: the forwarder has settled. *)
Definition conclude (f : Forwarding) : M Reply :=
  let h := validHeaders (sender f) in
  match forwarded f with
  | Throw _ => sendError 502 DISCORD_FORWARD_FAILED (clientIdForAudit h)
  | Normal discordMessageId =>
      writeAuditRow (clientIdForAudit h) "FORWARDED" None;;
      send (mkReply 200
              (UploadSuccessResponse requestId (default EmptyString discordMessageId)
                 (verifiedFileSha256 (parsedUpload f))))
  end.

(** The audit insert can succeed: the storage layer does not fail on
    it and the request id is not on record yet. *)
Definition auditReady (d : Database) : Prop :=
  storageFault env InsertAudit = None /\ upload_audit d !! requestId = None.

(** What has been checked against store [d] when the handler starts
    to await the payload. *)
Definition identified (d : Database) (s : Identified) : Prop :=
  let h := validHeaders s in
  UploadHeadersSchema (headers request) = Some h
  /\ Nonces.isTimestampWithinSkew (Number_of_decimal (x_scamscreener_timestamp h))
       (dateNow env / 1000) (maxClockSkewSeconds config) = true
  /\ clients d !! x_scamscreener_client_id h = Some (client s)
  /\ ClientRecord.active (client s) = 1
  /\ Nonces.hasSeenNonce d (x_scamscreener_client_id h) (x_scamscreener_nonce h) = false
  /\ isMultipart request = true.

(** The world once an audit row has been written and [reply] sent. *)
Definition recorded (clientId : option string) (status : string)
    (errorCode : option ApiErrorCode) (reply : Reply) (w : World) : World :=
  let row := auditRow clientId status errorCode in
  mkWorld (withUploadAudit (db w) (<[requestId := row]> (upload_audit (db w))))
          (trace w ++ [AuditWritten row; ReplySent reply]).

(** *** Vocabulary for statements about the handler *)

(** A reply has been recorded in [w']: after the events [pre] the
    trace ends with the audit row and then the reply, and the row is
    in the audit table under the request id. The row names the client
    id of the validated headers, or nobody when they did not validate. *)
Definition Recorded (status : string) (errorCode : option ApiErrorCode)
    (reply : Reply) (pre : list Event) (w' : World) : Prop :=
  let row := auditRow (x_scamscreener_client_id <$> UploadHeadersSchema (headers request))
               status errorCode in
  trace w' = pre ++ [AuditWritten row; ReplySent reply]
  /\ upload_audit (db w') !! requestId = Some row.

(** The nonce row the replay commit inserts. *)
Definition committedNonce (h : UploadHeaders) : NonceRow.t :=
  NonceRow.mk (x_scamscreener_client_id h) (x_scamscreener_nonce h)
    (DateTime.toISOString (commitTime env))
    (DateTime.toISOString (commitTime env + nonceTtlSeconds config * 1000)).

(** The store with that row in it, and the same after the sweep that
    follows (which is skipped when the storage layer fails on it). *)
Definition withCommittedNonce (h : UploadHeaders) (d : Database) : Database :=
  withNonces d (<[(x_scamscreener_client_id h, x_scamscreener_nonce h)
                  := committedNonce h]> (nonces d)).

Definition afterSweep (d : Database) : Database :=
  match storageFault env CleanupExpiredNonces with
  | Some _ => d
  | None => snd (Nonces.cleanupExpiredNonces d (DateTime.toISOString (cleanupTime env)))
  end.

(** The signature header matches the digest of the canonical string. *)
Definition signatureMatches (s : Identified) (upload : ParsedUpload) : bool :=
  String.eqb (Hex.toLowerCase (x_scamscreener_signature (validHeaders s)))
    (Signature.hmacSha256Hex (ClientRecord.client_secret (client s))
       (canonicalFor (validHeaders s) upload)).

(** The replay commit goes through on store [d]. *)
Definition commitSucceeds (h : UploadHeaders) (d : Database) : Prop :=
  storageFault env PersistNonce = None
  /\ nonces d !! (x_scamscreener_client_id h, x_scamscreener_nonce h) = None.

(** The HTTP status the route pairs with each error code. *)
Definition statusOf (errorCode : ApiErrorCode) : Z :=
  match errorCode with
  | AUTH_FAILED => 401
  | NONCE_REPLAY => 409
  | PAYLOAD_INVALID => 422
  | FILE_TOO_LARGE => 413
  | DISCORD_FORWARD_FAILED => 502
  | RATE_LIMITED => 429
  | INVITE_INVALID => 400
  | INVITE_EXPIRED => 410
  | INVITE_ALREADY_USED => 409
  end.

Definition rejection (errorCode : ApiErrorCode) : Reply :=
  mkReply (statusOf errorCode) (uploadError errorCode requestId).

(** The nonce of the validated headers is, or is not, on record in [d]. *)
Definition nonceOnRecord (d : Database) (seen : bool) : Prop :=
  exists h, UploadHeadersSchema (headers request) = Some h
            /\ Nonces.hasSeenNonce d (x_scamscreener_client_id h)
                 (x_scamscreener_nonce h) = seen.

(** What [identify] can do in world [w]. *)
Inductive IdentifyOutcome (w : World) : completion (Reply + Identified) * World -> Prop :=
| identify_rejects errorCode :
    let reply := rejection errorCode in
    errorCode = AUTH_FAILED
    \/ (errorCode = NONCE_REPLAY /\ nonceOnRecord (db w) true)
    \/ (errorCode = PAYLOAD_INVALID /\ nonceOnRecord (db w) false) ->
    auditReady (db w) ->
    IdentifyOutcome w
      (Normal (inl reply),
       recorded (x_scamscreener_client_id <$> UploadHeadersSchema (headers request))
                "REJECTED" (Some errorCode) reply w)
| identify_continues s :
    identified (db w) s ->
    IdentifyOutcome w (Normal (inr s), w)
| identify_throws e :
    (exists call, storageFault env call <> None) \/ ~ auditReady (db w) ->
    IdentifyOutcome w (Throw e, w).

(** What [verifyAndCommit] can do in world [w]. *)
Inductive CommitOutcome (s : Identified) (w : World)
  : completion (Reply + Forwarding) * World -> Prop :=
| commit_rejects_payload errorCode error :
    let reply := rejection errorCode in
    readMultipartPayload request (maxUploadBytes config) = Throw error ->
    errorCode = FILE_TOO_LARGE \/ errorCode = PAYLOAD_INVALID ->
    auditReady (db w) ->
    CommitOutcome s w
      (Normal (inl reply),
       recorded (clientIdForAudit (validHeaders s)) "REJECTED" (Some errorCode) reply w)
| commit_rejects_signature upload :
    let reply := rejection AUTH_FAILED in
    readMultipartPayload request (maxUploadBytes config) = Normal upload ->
    signatureMatches s upload = false ->
    auditReady (db w) ->
    CommitOutcome s w
      (Normal (inl reply),
       recorded (clientIdForAudit (validHeaders s)) "REJECTED" (Some AUTH_FAILED) reply w)
| commit_rejects_replay upload :
    let reply := rejection NONCE_REPLAY in
    readMultipartPayload request (maxUploadBytes config) = Normal upload ->
    signatureMatches s upload = true ->
    ~ commitSucceeds (validHeaders s) (db w) ->
    auditReady (db w) ->
    CommitOutcome s w
      (Normal (inl reply),
       recorded (clientIdForAudit (validHeaders s)) "REJECTED" (Some NONCE_REPLAY) reply w)
| commit_forwards upload :
    readMultipartPayload request (maxUploadBytes config) = Normal upload ->
    signatureMatches s upload = true ->
    commitSucceeds (validHeaders s) (db w) ->
    CommitOutcome s w
      (Normal (inr {| sender := s; parsedUpload := upload;
                      forwarded := discordForwarder env (discordWebhookUrl config)
                                     (forwardInput upload) |}),
       mkWorld (afterSweep (withCommittedNonce (validHeaders s) (db w)))
               (trace w ++ [ForwarderCalled (forwardInput upload)]))
| commit_throws e :
    ~ auditReady (db w) ->
    CommitOutcome s w (Throw e, w).

(** What [conclude] can do in world [w]. *)
Inductive ConcludeOutcome (f : Forwarding) (w : World) : completion Reply * World -> Prop :=
| conclude_forwarded discordMessageId :
    let reply := mkReply 200
                   (UploadSuccessResponse requestId (default EmptyString discordMessageId)
                      (verifiedFileSha256 (parsedUpload f))) in
    forwarded f = Normal discordMessageId ->
    auditReady (db w) ->
    ConcludeOutcome f w
      (Normal reply,
       recorded (clientIdForAudit (validHeaders (sender f))) "FORWARDED" None reply w)
| conclude_forward_failed e :
    let reply := rejection DISCORD_FORWARD_FAILED in
    forwarded f = Throw e ->
    auditReady (db w) ->
    ConcludeOutcome f w
      (Normal reply,
       recorded (clientIdForAudit (validHeaders (sender f))) "REJECTED"
                (Some DISCORD_FORWARD_FAILED) reply w)
| conclude_throws e :
    ~ auditReady (db w) ->
    ConcludeOutcome f w (Throw e, w).

(** The whole handler. [others1] and [others2] are what other requests
    do to the store while this one awaits the payload and the
    forwarder. *)
Definition handle (others1 others2 : Database -> Database) : M Reply :=
  r1 ← identify;
  match r1 with
  | inl reply => mret reply
  | inr s =>
      interleave others1;;
      r2 ← verifyAndCommit s;
      match r2 with
      | inl reply => mret reply
      | inr f => interleave others2;; conclude f
      end
  end.

End Request.

(** One request served with nothing else running. *)
Definition upload (config : AppConfig) (env : Env) (request : Request)
    (d : Database) : completion Reply * World :=
  handle config env request id id (mkWorld d []).

End Handler.

End Upload.

(** ** A concrete platform and concrete requests

    Used to run the definitions above on explicit inputs. *)

Module Fixture.

(** Digit groups of 8, 4, 4, 4 and 12 hexadecimal characters joined by
    hyphens: the shape every zod release accepts for a version-4 UUID
    such as the ones [randomUUID()] produces. *)
Definition uuidShape (s : string) : bool :=
  let cs := list_ascii_of_string s in
  let hexAt (from count : nat) :=
    forallb Hex.isHexChar (firstn count (skipn from cs)) in
  let hyphenAt (i : nat) :=
    match nth_error cs i with
    | Some c => Ascii.eqb c (ascii_of_nat 45)
    | None => false
    end in
  (length cs =? 36)%nat
  && hexAt 0%nat 8%nat && hyphenAt 8%nat
  && hexAt 9%nat 4%nat && hyphenAt 13%nat
  && hexAt 14%nat 4%nat && hyphenAt 18%nat
  && hexAt 19%nat 4%nat && hyphenAt 23%nat
  && hexAt 24%nat 12%nat.

(** The instant of a text in the fixed format that [toISOString]
    prints, found by search over the days and milliseconds of the
    years 1970 to 2100; any other text is not a date. *)
Definition daysFromCivil (y m d : Z) : Z :=
  let y' := if m <=? 2 then y - 1 else y in
  let era := y' / 400 in
  let yoe := y' - era * 400 in
  let doy := (153 * (if m >? 2 then m - 3 else m + 9) + 2) / 5 + d - 1 in
  let doe := yoe * 365 + yoe / 4 - yoe / 100 + doy in
  era * 146097 + doe - 719468.

Definition isoGetTime (s : string) : option Z :=
  let num (from count : nat) := String.substring from count s in
  let field (from count : nat) :=
    if Upload.isDecimalText (num from count)
    then Some (Upload.Number_of_decimal (num from count)) else None in
  y ← field 0%nat 4%nat; mo ← field 5%nat 2%nat; d ← field 8%nat 2%nat;
  h ← field 11%nat 2%nat; mi ← field 14%nat 2%nat; sec ← field 17%nat 2%nat;
  ms ← field 20%nat 3%nat;
  let t := daysFromCivil y mo d * 86400000 + h * 3600000 + mi * 60000 + sec * 1000 + ms in
  if String.eqb (DateTime.toISOString t) s then Some t else None.

Definition quote : string := String (ascii_of_nat 34) EmptyString.

(** JSON text of an object whose members are all strings. *)
Definition objectText (members : list (string * string)) : string :=
  ("{" ++ String.concat ","
            (map (fun kv => quote ++ fst kv ++ quote ++ ":" ++ quote ++ snd kv ++ quote)
                 members) ++ "}")%string.

Definition objectValue (members : list (string * string)) : json :=
  JObject (map (fun kv => (fst kv, JString (snd kv))) members).

Definition csv : list byte :=
  Bytes.utf8 ("label,score" ++ Signature.newline ++ "scam,0.95" ++ Signature.newline).

Definition metadataMembers (sha : string) : list (string * string) :=
  [("schemaVersion", "1"); ("modVersion", "1.0.0"); ("aiModelVersion", "model-1");
   ("playerName", "Player1"); ("playerUuid", "0b6c9c7e-7d55-4c55-9d3a-0f1d3c1f6a10");
   ("clientTimestamp", "2023-11-14T22:13:20.000Z");
   ("fileSha256", sha); ("fileSizeBytes", "22")].

Definition goodMetadata : list (string * string) :=
  metadataMembers (Signature.sha256Hex csv).

(** Metadata declaring a hash the payload does not have. *)
Definition wrongHashMetadata : list (string * string) :=
  metadataMembers "ffffffffffffffffffffffffffffffffffffffffffffffffffffffffffffffff".

Definition platform : Platform := {|
  zodUuid := uuidShape;
  dateGetTime := isoGetTime;
  JSON_parse := fun text =>
    if String.eqb text (objectText goodMetadata)
    then Some (objectValue goodMetadata)
    else if String.eqb text (objectText wrongHashMetadata)
    then Some (objectValue wrongHashMetadata)
    else None;
  Number_coerce := fun v =>
    match v with
    | JNumber n => n
    | JString s =>
        if Upload.isDecimalText s then Integral (Upload.Number_of_decimal s)
        else NonIntegral
    | JBool true => Integral 1
    | JBool false | JNull => Integral 0
    | JArray _ | JObject _ => NonIntegral
    end
|}.

Definition config : Upload.AppConfig := {|
  Upload.discordWebhookUrl := "https://example.com/webhook";
  Upload.maxUploadBytes := 26214400;
  Upload.maxClockSkewSeconds := 300;
  Upload.nonceTtlSeconds := 600
|}.

Definition testClientId : string := "relay-client-test".
Definition testSecret : string := "relay-secret-test".
Definition testNonce : string := "d1f8011d-6a1a-4d87-8db2-f7ca2b3fbf88".

Definition testClient : ClientRecord.t :=
  ClientRecord.mk testClientId testSecret
    (Some "00000000-0000-0000-0000-000000000001") 1 "2023-11-01T00:00:00.000Z" None.

Definition emptyDatabase : Database := mkDatabase ∅ ∅ ∅ ∅.

Definition seeded : Database :=
  withClients emptyDatabase {[ testClientId := testClient ]}.

Definition signatureFor (secret : string) (members : list (string * string)) : string :=
  Signature.hmacSha256Hex secret
    (Signature.buildCanonicalString
       {| Signature.method := "POST";
          Signature.path := "/api/v1/training-uploads";
          Signature.clientId := testClientId;
          Signature.timestamp := "1700000000";
          Signature.nonce := testNonce;
          Signature.fileSha256 :=
            match member "fileSha256" (map (fun kv => (fst kv, JString (snd kv))) members) with
            | Some (JString s) => s
            | _ => EmptyString
            end;
          Signature.fileSizeBytes := 22;
          Signature.schemaVersion := "1" |}).

Definition headersWith (signature : string) : gmap string string :=
  {[ "x-scamscreener-client-id" := testClientId;
     "x-scamscreener-timestamp" := "1700000000";
     "x-scamscreener-nonce" := testNonce;
     "x-scamscreener-signature" := signature;
     "x-scamscreener-signature-version" := "v1" ]}.

Definition requestWith (signature : string) (members : list (string * string))
  : Upload.Request := {|
  Upload.headers := headersWith signature;
  Upload.ip := "203.0.113.7";
  Upload.isMultipart := true;
  Upload.multipart :=
    {| Upload.parts := [Upload.Field "metadata" (objectText members);
                        Upload.FilePart "training_file" [csv] None];
       Upload.streamFailure := None |}
|}.

(** A correctly signed upload of [csv]. *)
Definition goodRequest : Upload.Request :=
  requestWith (signatureFor testSecret goodMetadata) goodMetadata.

(** The same upload with a declared hash that differs from the payload's. *)
Definition wrongHashRequest : Upload.Request :=
  requestWith (signatureFor testSecret wrongHashMetadata) wrongHashMetadata.

(** Redemption fixtures. *)

Definition redeemBody (code install : string) : json :=
  JObject [("inviteCode", JString code); ("installId", JString install);
           ("modVersion", JString "1.0.0")].

Definition inviteFor (code : string) (maxUses usedCount : Z) (expiresAt : option string)
  : InviteCodeRecord.t :=
  InviteCodeRecord.mk (Signature.hashInviteCode code) maxUses usedCount expiresAt
    "2023-11-01T00:00:00.000Z" (Some "test").

Definition withInvite (d : Database) (invite : InviteCodeRecord.t) : Database :=
  withInviteCodes d (<[InviteCodeRecord.code_hash invite := invite]> (invite_codes d)).

Definition redeemEnv (nowMs : Z) (seed : byte) : Redeem.Env := {|
  Redeem.now := nowMs;
  Redeem.randomClient := repeat seed 12;
  Redeem.randomSecret := repeat seed 24
|}.

Definition installA : string := "00000000-0000-4000-8000-00000000000a".
Definition installB : string := "00000000-0000-4000-8000-00000000000b".

Definition upperChar (c : ascii) : ascii :=
  let n := nat_of_ascii c in
  if (97 <=? n)%nat && (n <=? 122)%nat then ascii_of_nat (n - 32) else c.

Fixpoint toUpperCase (s : string) : string :=
  match s with
  | EmptyString => EmptyString
  | String c rest => String (upperChar c) (toUpperCase rest)
  end.

Definition noFault : Upload.DbCall -> option JsError := fun _ => None.

(** The storage layer fails on the INSERT into [nonces], and on nothing
    else, for a reason that has nothing to do with the key. *)
Definition busyAtCommit : Upload.DbCall -> option JsError := fun call =>
  match call with
  | Upload.PersistNonce => Some (mkError "database is locked" (Some "SQLITE_BUSY"))
  | _ => None
  end.

(** Another request commits the same nonce for the same client. *)
Definition sameNonceCommitted (d : Database) : Database :=
  withNonces d
    (<[(testClientId, testNonce) :=
         NonceRow.mk testClientId testNonce "2023-11-14T22:13:20.400Z"
                     "2023-11-14T22:23:20.400Z"]> (nonces d)).

Definition forwarderOk : string -> Upload.ForwardUploadInput -> completion (option string) :=
  fun _ _ => Normal (Some "1234567890").

Definition forwarderDown : string -> Upload.ForwardUploadInput -> completion (option string) :=
  fun _ _ => Throw (Error "downstream failed").

Definition envWith (uuid : string) (fault : Upload.DbCall -> option JsError)
    (fwd : string -> Upload.ForwardUploadInput -> completion (option string))
  : Upload.Env := {|
  Upload.randomUUID := uuid;
  Upload.dateNow := 1700000000123;
  Upload.commitTime := 1700000000456;
  Upload.cleanupTime := 1700000000457;
  Upload.auditTime := 1700000000789;
  Upload.storageFault := fault;
  Upload.discordForwarder := fwd
|}.

End Fixture.

(** * Properties *)

Import Fixture.

(** ** The model agrees with published test vectors and with the
    repository's unit tests *)

Example sha256_constants :
  length Sha256.roundConstants = 64%nat
  /\ nth 0 Sha256.roundConstants 0 = 0x428a2f98
  /\ nth 63 Sha256.roundConstants 0 = 0xc67178f2
  /\ Sha256.ra Sha256.initialRegisters = 0x6a09e667
  /\ Sha256.rh Sha256.initialRegisters = 0x5be0cd19.
Proof. vm_compute. auto. Qed.

Example sha256_abc :
  Hex.encode (Sha256.digest (Bytes.utf8 "abc"))
  = "ba7816bf8f01cfea414140de5dae2223b00361a396177a9cb410ff61f20015ad".
Proof. vm_compute. reflexivity. Qed.

Example sha256_empty :
  Hex.encode (Sha256.digest (Bytes.utf8 EmptyString))
  = "e3b0c44298fc1c149afbf4c8996fb92427ae41e4649b934ca495991b7852b855".
Proof. vm_compute. reflexivity. Qed.

Example hmac_rfc4231_case2 :
  Hex.encode (Hmac.sha256 (Bytes.utf8 "Jefe") (Bytes.utf8 "what do ya want for nothing?"))
  = "5bdcc146bf60754e6a042426089575c75a003f089d2739839dec58b964ec3843".
Proof. vm_compute. reflexivity. Qed.

Example iso_epoch : DateTime.toISOString 0 = "1970-01-01T00:00:00.000Z".
Proof. vm_compute. reflexivity. Qed.
Example iso_2026 : DateTime.toISOString 1767225600000 = "2026-01-01T00:00:00.000Z".
Proof. vm_compute. reflexivity. Qed.
Example iso_leap : DateTime.toISOString 1709210096789 = "2024-02-29T12:34:56.789Z".
Proof. vm_compute. reflexivity. Qed.
Example hmac_test_vector :
  Signature.hmacSha256Hex "relay-secret-test"
    (Signature.buildCanonicalString
       {| Signature.method := "POST"; Signature.path := "/api/v1/training-uploads";
          Signature.clientId := "relay-client-test"; Signature.timestamp := "1700001234";
          Signature.nonce := "327dcf14-f6e9-41ea-8948-8c13823e3173";
          Signature.fileSha256 := "f98c51f9e91f0f64bcf8f4f6a04591057d58a1a5cbf8f6df53f94940f2dc0f87";
          Signature.fileSizeBytes := 100; Signature.schemaVersion := "1" |})
  = "7913152b8e09a2cb52c1eb8fdf6f8dbd6f531d1f4774471956b53361e29dcaee".
Proof. vm_compute. reflexivity. Qed.
Example compare_mixed_case :
  Signature.timingSafeEqualHex "AbcD" "abcd" = Normal true.
Proof. vm_compute. reflexivity. Qed.

(** test/signature.test.ts *)

Example test_canonical_string :
  Signature.buildCanonicalString
    {| Signature.method := "POST"; Signature.path := "/api/v1/training-uploads";
       Signature.clientId := "relay-client-a1b2"; Signature.timestamp := "1700000000";
       Signature.nonce := "8eb62752-e147-4f2b-95a8-62de00f99701";
       Signature.fileSha256 := "abc123"; Signature.fileSizeBytes := 42;
       Signature.schemaVersion := "1" |}
  = String.concat Signature.newline
      ["POST"; "/api/v1/training-uploads"; "relay-client-a1b2"; "1700000000";
       "8eb62752-e147-4f2b-95a8-62de00f99701"; "abc123"; "42"; "1"].
Proof. vm_compute. reflexivity. Qed.

Example test_signature_of_zeros_is_refused :
  Signature.verifySignature "relay-secret-test" "POST"
    "0000000000000000000000000000000000000000000000000000000000000000"
  = Normal false.
Proof. vm_compute. reflexivity. Qed.

Example test_skew_window :
  Nonces.isTimestampWithinSkew 1000 1200 300 = true
  /\ Nonces.isTimestampWithinSkew 1000 1301 300 = false.
Proof. split; reflexivity. Qed.

(** test/nonces.test.ts *)

Example test_nonce_stored_and_detected :
  let nonce := "d1f8011d-6a1a-4d87-8db2-f7ca2b3fbf88" in
  Nonces.hasSeenNonce emptyDatabase "relay-client-1" nonce = false
  /\ exists d,
       Nonces.persistNonce emptyDatabase "relay-client-1" nonce
         "2026-01-01T00:00:00.000Z" "2026-01-01T00:10:00.000Z" = Normal d
       /\ Nonces.hasSeenNonce d "relay-client-1" nonce = true.
Proof. cbv zeta. split; [reflexivity|]. eexists. split; vm_compute; reflexivity. Qed.

Example test_expired_nonce_rows_removed :
  let early := "2a5d51dd-df9d-46a8-93cf-71b0f56fda38" in
  let late := "975f6b46-52b4-4b4f-a59d-d67fe1614e66" in
  let d := withNonces emptyDatabase
             {[ ("relay-client-1", early) :=
                  NonceRow.mk "relay-client-1" early
                    "2026-01-01T00:00:00.000Z" "2026-01-01T00:01:00.000Z";
                ("relay-client-1", late) :=
                  NonceRow.mk "relay-client-1" late
                    "2026-01-01T00:00:00.000Z" "3026-01-01T00:01:00.000Z" ]} in
  let swept := Nonces.cleanupExpiredNonces d "2026-01-01T00:30:00.000Z" in
  fst swept = 1
  /\ Nonces.hasSeenNonce (snd swept) "relay-client-1" early = false
  /\ Nonces.hasSeenNonce (snd swept) "relay-client-1" late = true.
Proof. cbv zeta. repeat split; vm_compute; reflexivity. Qed.

(** test/redeem.integration.test.ts *)

Example test_redeem_valid_invite :
  fst (Redeem.redeem platform (withInvite emptyDatabase (inviteFor "invite-valid" 1 0 None))
         (redeemEnv 1700000000000 x01) (redeemBody "invite-valid" installA))
  = Normal (mkReply 200
              (RedeemSuccessResponse "relay-client-010101010101010101010101"
                 "relay-secret-010101010101010101010101010101010101010101010101" "v1")).
Proof. vm_compute. reflexivity. Qed.

Example test_redeem_unknown_invite :
  fst (Redeem.redeem platform emptyDatabase
         (redeemEnv 1700000000000 x01) (redeemBody "missing" installA))
  = Normal (mkReply 400 (Redeem.apiError INVITE_INVALID)).
Proof. vm_compute. reflexivity. Qed.

Example test_redeem_expired_invite :
  fst (Redeem.redeem platform
         (withInvite emptyDatabase
            (inviteFor "invite-expired" 1 0 (Some "2000-01-01T00:00:00.000Z")))
         (redeemEnv 1700000000000 x01) (redeemBody "invite-expired" installA))
  = Normal (mkReply 410 (Redeem.apiError INVITE_EXPIRED)).
Proof. vm_compute. reflexivity. Qed.

Example test_redeem_used_invite :
  fst (Redeem.redeem platform (withInvite emptyDatabase (inviteFor "invite-used" 1 1 None))
         (redeemEnv 1700000000000 x01) (redeemBody "invite-used" installA))
  = Normal (mkReply 409 (Redeem.apiError INVITE_ALREADY_USED)).
Proof. vm_compute. reflexivity. Qed.

(** test/upload.integration.test.ts *)

Example test_upload_accepted_and_forwarded :
  let outcome := Upload.upload platform config (envWith "u1" noFault forwarderOk)
                   goodRequest seeded in
  fst outcome
  = Normal (mkReply 200 (UploadSuccessResponse "req-u1" "1234567890" (Signature.sha256Hex csv)))
  /\ length (List.filter
               (fun ev => match ev with Upload.ForwarderCalled _ => true | _ => false end)
               (Upload.trace (snd outcome))) = 1%nat.
Proof. cbv zeta. split; vm_compute; reflexivity. Qed.

Example test_upload_invalid_signature :
  let outcome := Upload.upload platform config (envWith "u1" noFault forwarderOk)
                   (requestWith "0000000000000000000000000000000000000000000000000000000000000000"
                      goodMetadata) seeded in
  fst outcome = Normal (mkReply 401 (Upload.uploadError AUTH_FAILED "req-u1"))
  /\ forall input, ~ In (Upload.ForwarderCalled input) (Upload.trace (snd outcome)).
Proof.
  cbv zeta. split; [vm_compute; reflexivity|].
  intros input Hin. vm_compute in Hin. destruct Hin as [H|[H|[]]]; discriminate H.
Qed.

Example test_upload_nonce_replay :
  let first := Upload.upload platform config (envWith "u1" noFault forwarderOk)
                 goodRequest seeded in
  let second := Upload.upload platform config (envWith "u2" noFault forwarderOk)
                  goodRequest (Upload.db (snd first)) in
  statusCode <$> (match fst first with Normal r => Some r | Throw _ => None end) = Some 200
  /\ fst second = Normal (mkReply 409 (Upload.uploadError NONCE_REPLAY "req-u2")).
Proof. cbv zeta. split; vm_compute; reflexivity. Qed.

Example test_upload_hash_mismatch :
  fst (Upload.upload platform config (envWith "u1" noFault forwarderOk)
         wrongHashRequest seeded)
  = Normal (mkReply 422 (Upload.uploadError PAYLOAD_INVALID "req-u1")).
Proof. vm_compute. reflexivity. Qed.

Example test_upload_forward_failed :
  fst (Upload.upload platform config (envWith "u1" noFault forwarderDown)
         goodRequest seeded)
  = Normal (mkReply 502 (Upload.uploadError DISCORD_FORWARD_FAILED "req-u1")).
Proof. vm_compute. reflexivity. Qed.

(** ** Hexadecimal text *)

Section HexFacts.

Import Hex.

Lemma byte_digits (b : byte) :
  let v := Bytes.Z_of_byte b in
  digitValue (lowerDigit (v / 16)) = Some (v / 16)
  /\ digitValue (lowerDigit (v mod 16)) = Some (v mod 16)
  /\ Bytes.byte_of_Z (16 * (v / 16) + v mod 16) = b
  /\ isLowerHexChar (lowerDigit (v / 16)) = true
  /\ isLowerHexChar (lowerDigit (v mod 16)) = true.
Proof. destruct b; vm_compute; auto. Qed.

Lemma lowerHex_isHex (c : ascii) : isLowerHexChar c = true -> isHexChar c = true.
Proof. destruct c as [[] [] [] [] [] [] [] []]; vm_compute; congruence. Qed.

Lemma lowerHex_fixed (c : ascii) : isLowerHexChar c = true -> lowerChar c = c.
Proof. destruct c as [[] [] [] [] [] [] [] []]; vm_compute; congruence. Qed.

Lemma lowerChar_hex (c : ascii) :
  isHexChar (lowerChar c) = true -> isLowerHexChar (lowerChar c) = true.
Proof. destruct c as [[] [] [] [] [] [] [] []]; vm_compute; congruence. Qed.

Lemma lowerHex_digit (c : ascii) :
  isLowerHexChar c = true ->
  exists n, digitValue c = Some n /\ lowerDigit n = c /\ 0 <= n < 16.
Proof.
  destruct c as [[] [] [] [] [] [] [] []]; vm_compute; try congruence;
    intros _; eexists; repeat split; (reflexivity || discriminate).
Qed.

Lemma decode_encode (bs : list byte) : decode (encode bs) = bs.
Proof.
  induction bs as [|b bs IH]; [reflexivity|].
  destruct (byte_digits b) as (Hhi & Hlo & Hb & _).
  cbn [encode decode]. cbv zeta in Hhi, Hlo, Hb. rewrite Hhi, Hlo, Hb, IH. reflexivity.
Qed.

Lemma encode_lowerHex (bs : list byte) : allChars isLowerHexChar (encode bs) = true.
Proof.
  induction bs as [|b bs IH]; [reflexivity|].
  destruct (byte_digits b) as (_ & _ & _ & Hhi & Hlo).
  cbn [encode allChars]. cbv zeta in Hhi, Hlo. rewrite Hhi, Hlo, IH. reflexivity.
Qed.

Lemma allChars_weaken (p q : ascii -> bool) (s : string) :
  (forall c, p c = true -> q c = true) -> allChars p s = true -> allChars q s = true.
Proof.
  intros Hpq. induction s as [|c s IH]; [reflexivity|].
  cbn [allChars]. rewrite !andb_true_iff. intros [Hc Hs]. auto.
Qed.

Lemma length_encode (bs : list byte) :
  String.length (encode bs) = (2 * length bs)%nat.
Proof. induction bs as [|b bs IH]; [reflexivity|]. cbn [encode String.length length]. lia. Qed.

Lemma toLowerCase_lowerHex (s : string) :
  allChars isLowerHexChar s = true -> toLowerCase s = s.
Proof.
  induction s as [|c s IH]; [reflexivity|].
  cbn [allChars toLowerCase]. rewrite andb_true_iff. intros [Hc Hs].
  rewrite (lowerHex_fixed c Hc), (IH Hs). reflexivity.
Qed.

Lemma toLowerCase_hex_is_lower (s : string) :
  allChars isHexChar (toLowerCase s) = true ->
  allChars isLowerHexChar (toLowerCase s) = true.
Proof.
  induction s as [|c s IH]; [reflexivity|].
  cbn [allChars toLowerCase]. rewrite !andb_true_iff. intros [Hc Hs].
  split; [apply lowerChar_hex, Hc | apply IH, Hs].
Qed.

Lemma length_decode (s : string) :
  allChars isHexChar s = true ->
  length (decode s) = Nat.div2 (String.length s).
Proof.
  revert s. fix IH 1. intros [|c1 [|c2 rest]]; try reflexivity.
  cbn [allChars decode String.length Nat.div2]. rewrite !andb_true_iff.
  intros (H1 & H2 & Hrest). unfold isHexChar in H1, H2.
  destruct (digitValue c1); [|discriminate]. destruct (digitValue c2); [|discriminate].
  cbn [length]. f_equal. apply IH, Hrest.
Qed.

(** On lower-case hexadecimal text of even length, decoding loses
    nothing. *)
Lemma decode_injective (a b : string) :
  allChars isLowerHexChar a = true -> allChars isLowerHexChar b = true ->
  String.length a = String.length b -> Nat.even (String.length a) = true ->
  decode a = decode b -> a = b.
Proof.
  revert a b. fix IH 1.
  intros [|a1 [|a2 a]] [|b1 [|b2 b]]; cbn [String.length]; try discriminate; try reflexivity.
  cbn [allChars decode Nat.even]. rewrite !andb_true_iff.
  intros (Ha1 & Ha2 & Ha) (Hb1 & Hb2 & Hb) Hlen Heven.
  destruct (lowerHex_digit a1 Ha1) as (x1 & -> & <- & ?).
  destruct (lowerHex_digit a2 Ha2) as (x2 & -> & <- & ?).
  destruct (lowerHex_digit b1 Hb1) as (y1 & -> & <- & ?).
  destruct (lowerHex_digit b2 Hb2) as (y2 & -> & <- & ?).
  intros Heq. injection Heq as Hbyte Hrest.
  assert (Hinj : forall u v, 0 <= u < 256 -> 0 <= v < 256 ->
                 Bytes.byte_of_Z u = Bytes.byte_of_Z v -> u = v).
  { intros u v Hu Hv. unfold Bytes.byte_of_Z.
    rewrite !Z.mod_small by lia.
    destruct (Byte.of_N (Z.to_N u)) as [bu|] eqn:Eu;
      [|apply Byte.of_N_None_iff in Eu; lia].
    destruct (Byte.of_N (Z.to_N v)) as [bv|] eqn:Ev;
      [|apply Byte.of_N_None_iff in Ev; lia].
    intros ->. apply Byte.to_of_N in Eu, Ev. lia. }
  apply Hinj in Hbyte; [|lia|lia].
  assert (x1 = y1) by lia. assert (x2 = y2) by lia. subst.
  f_equal. f_equal. apply IH; auto. lia.
Qed.

End HexFacts.

(** ** Signatures *)

Section SignatureFacts.

Import Signature.

Lemma Z_of_byte_injective (x y : byte) : Bytes.Z_of_byte x = Bytes.Z_of_byte y -> x = y.
Proof.
  unfold Bytes.Z_of_byte. intros H. apply N2Z.inj in H.
  pose proof (Byte.of_to_N x) as Hx. rewrite H, Byte.of_to_N in Hx. congruence.
Qed.

Lemma or_fold_zero (l : list (byte * byte)) (acc : Z) :
  fold_left (fun acc xy => Z.lor acc (Z.lxor (Bytes.Z_of_byte (fst xy))
                                             (Bytes.Z_of_byte (snd xy)))) l acc = 0
  <-> acc = 0 /\ Forall (fun xy => fst xy = snd xy) l.
Proof.
  revert acc. induction l as [|[x y] l IH]; intros acc; cbn [fold_left fst snd].
  - split; [intros ->; split; [reflexivity|constructor] | intros [-> _]; reflexivity].
  - rewrite IH, Z.lor_eq_0_iff. split.
    + intros [[-> Hxy] Hl]. split; [reflexivity|]. constructor; [|exact Hl].
      apply Z.lxor_eq in Hxy. apply Z_of_byte_injective, Hxy.
    + intros [-> Hl]. inversion Hl as [|? ? Hxy Hl']; subst. cbn [fst snd] in Hxy. subst y.
      rewrite Z.lxor_nilpotent. auto.
Qed.

Lemma combine_diagonal (a b : list byte) :
  length a = length b ->
  Forall (fun xy => fst xy = snd xy) (combine a b) <-> a = b.
Proof.
  revert b. induction a as [|x a IH]; intros [|y b]; cbn [length combine]; try discriminate.
  - intros _. split; [reflexivity|constructor].
  - intros Hlen. injection Hlen as Hlen. split.
    + intros H. inversion H as [|? ? Hxy Hrest]; subst. cbn [fst snd] in Hxy. subst y.
      f_equal. apply IH; assumption.
    + intros [= -> ->]. constructor; [reflexivity|]. apply IH; auto.
Qed.

(** The constant-time comparison decides equality of buffers of one
    length. *)
Lemma timingSafeEqual_spec (a b : list byte) :
  length a = length b ->
  exists r, timingSafeEqual a b = Normal r /\ (r = true <-> a = b).
Proof.
  intros Hlen. unfold timingSafeEqual.
  rewrite (proj2 (Nat.eqb_eq _ _) Hlen). cbn [negb].
  eexists. split; [reflexivity|].
  rewrite Z.eqb_eq, or_fold_zero, combine_diagonal by exact Hlen. tauto.
Qed.

(** What the guarded comparison computes, on all inputs. *)
Lemma timingSafeEqualHex_spec (a b : string) :
  exists r, timingSafeEqualHex a b = Normal r
    /\ (r = true <->
        isHexText a = true /\ isHexText b = true
        /\ String.length a = String.length b
        /\ (String.length a mod 2 = 0)%nat
        /\ Hex.decode a = Hex.decode b).
Proof.
  unfold timingSafeEqualHex.
  destruct (isHexText a) eqn:Ha; cbn [negb orb];
    [|exists false; split; [reflexivity|]; split; [discriminate|intros (? & _); discriminate]].
  destruct (isHexText b) eqn:Hb; cbn [negb orb];
    [|exists false; split; [reflexivity|]; split; [discriminate|intros (_ & ? & _); discriminate]].
  destruct (Nat.eqb_spec (String.length a) (String.length b)) as [Hlen|Hlen]; cbn [negb orb];
    [|exists false; split; [reflexivity|]; split; [discriminate|intros (_ & _ & ? & _); contradiction]].
  destruct (Nat.eqb_spec (String.length a mod 2) 0) as [Heven|Hodd]; cbn [negb];
    [|exists false; split; [reflexivity|]; split; [discriminate|intros (_ & _ & _ & ? & _); contradiction]].
  assert (Hdec : length (Hex.decode a) = length (Hex.decode b)).
  { unfold isHexText in Ha, Hb. apply andb_true_iff in Ha as [_ Ha]. apply andb_true_iff in Hb as [_ Hb].
    rewrite !length_decode by assumption. rewrite Hlen. reflexivity. }
  rewrite (proj2 (Nat.eqb_eq _ _) Hdec). cbn [negb].
  destruct (timingSafeEqual_spec _ _ Hdec) as (r & -> & Hr).
  exists r. split; [reflexivity|]. rewrite Hr. tauto.
Qed.

End SignatureFacts.

Section SignatureTheorems.

Import Signature.

(** C7. The hex-digest comparison never throws: on every pair of
    strings it returns a boolean. It returns [false] whenever either
    string contains a character that is not a hexadecimal digit, or the
    two strings differ in length, or the bytes they decode to differ. *)
Theorem timingSafeEqualHex_total_and_negative (expectedHex providedHex : string) :
  (exists r, timingSafeEqualHex expectedHex providedHex = Normal r)
  /\ (Hex.allChars Hex.isHexChar expectedHex = false
      \/ Hex.allChars Hex.isHexChar providedHex = false
      \/ String.length expectedHex <> String.length providedHex
      \/ Hex.decode expectedHex <> Hex.decode providedHex ->
      timingSafeEqualHex expectedHex providedHex = Normal false).
Proof.
  destruct (timingSafeEqualHex_spec expectedHex providedHex) as (r & Hr & Hiff).
  split; [exists r; exact Hr|].
  intros Hbad. rewrite Hr. f_equal.
  destruct r; [|reflexivity]. exfalso.
  destruct (proj1 Hiff eq_refl) as (Ha & Hb & Hlen & _ & Hdec).
  unfold isHexText in Ha, Hb.
  apply andb_true_iff in Ha as [_ Ha]. apply andb_true_iff in Hb as [_ Hb].
  destruct Hbad as [H|[H|[H|H]]]; congruence.
Qed.

Lemma timingSafeEqualHex_total_and_negative_witness :
  Hex.allChars Hex.isHexChar "zz" = false
  /\ timingSafeEqualHex "zz" "ab" = Normal false.
Proof.
  split; [reflexivity|].
  apply (proj2 (timingSafeEqualHex_total_and_negative "zz" "ab")).
  left. reflexivity.
Defined.

(** C9. Comparing a string with itself returns [true] exactly when the
    string is non-empty, consists of hexadecimal digits only and has even
    length, and [false] otherwise; the three-character text [abc] is not
    equal to itself. *)
Theorem timingSafeEqualHex_reflexive_on_even_hex_only (s : string) :
  timingSafeEqualHex s s
  = Normal (Hex.nonEmpty s && Hex.allChars Hex.isHexChar s
            && (String.length s mod 2 =? 0)%nat)
  /\ timingSafeEqualHex "abc" "abc" = Normal false.
Proof.
  split; [|reflexivity].
  destruct (timingSafeEqualHex_spec s s) as (r & -> & Hiff). f_equal.
  fold (isHexText s).
  destruct (isHexText s) eqn:Hs, (Nat.eqb_spec (String.length s mod 2) 0) as [He|Ho];
    cbn [andb]; try (destruct r; [|reflexivity]; exfalso;
                     destruct (proj1 Hiff eq_refl) as (? & _ & _ & ? & _); congruence).
  apply Hiff. auto.
Qed.

Lemma length_digest (msg : list byte) : length (Sha256.digest msg) = 32%nat.
Proof. unfold Sha256.digest, Sha256.output, Bytes.be32. rewrite !length_app. reflexivity. Qed.

Lemma length_hmac (key msg : list byte) : length (Hmac.sha256 key msg) = 32%nat.
Proof. apply length_digest. Qed.

Lemma hmacSha256Hex_shape (secret canonical : string) :
  isHexText (hmacSha256Hex secret canonical) = true
  /\ Hex.allChars Hex.isLowerHexChar (hmacSha256Hex secret canonical) = true
  /\ String.length (hmacSha256Hex secret canonical) = 64%nat.
Proof.
  unfold hmacSha256Hex.
  pose proof (length_hmac (Bytes.utf8 secret) (Bytes.utf8 canonical)) as Hlen.
  pose proof (encode_lowerHex (Hmac.sha256 (Bytes.utf8 secret) (Bytes.utf8 canonical))) as Hlow.
  pose proof (length_encode (Hmac.sha256 (Bytes.utf8 secret) (Bytes.utf8 canonical))) as Hl.
  rewrite Hlen in Hl. split; [|split; [exact Hlow|exact Hl]].
  unfold isHexText. rewrite (allChars_weaken _ _ _ lowerHex_isHex Hlow), andb_true_r.
  destruct (Hex.encode _); [discriminate Hl|reflexivity].
Qed.

(** Verification compares the lower-cased signature with the digest it
    recomputes, and does not throw. *)
Lemma verifySignature_spec (secret canonical provided : string) :
  verifySignature secret canonical provided
  = Normal (String.eqb (Hex.toLowerCase provided) (hmacSha256Hex secret canonical)).
Proof.
  unfold verifySignature.
  destruct (hmacSha256Hex_shape secret canonical) as (Hhex & Hlow & Hlen).
  set (h := hmacSha256Hex secret canonical) in *.
  destruct (timingSafeEqualHex_spec h (Hex.toLowerCase provided)) as (r & -> & Hiff).
  f_equal. destruct (String.eqb_spec (Hex.toLowerCase provided) h) as [Heq|Hne].
  - apply Hiff. rewrite Heq, Hlen. auto.
  - destruct r; [|reflexivity]. exfalso. apply Hne.
    destruct (proj1 Hiff eq_refl) as (_ & Hp & Hl & He & Hd).
    unfold isHexText in Hp. apply andb_true_iff in Hp as [_ Hp].
    symmetry. apply decode_injective;
      [exact Hlow | apply toLowerCase_hex_is_lower, Hp | exact Hl
      | rewrite Hlen; reflexivity | exact Hd].
Qed.

End SignatureTheorems.

Section CanonicalString.

Import Signature.

Lemma append_cancel_l (p x y : string) : (p ++ x = p ++ y)%string -> x = y.
Proof.
  induction p as [|c p IH]; [auto|].
  change (String c p ++ x)%string with (String c (p ++ x)%string).
  change (String c p ++ y)%string with (String c (p ++ y)%string).
  intros [= H]. auto.
Qed.

Lemma length_append (x y : string) :
  String.length (x ++ y)%string = (String.length x + String.length y)%nat.
Proof.
  induction x as [|c x IH]; [reflexivity|].
  change (String c x ++ y)%string with (String c (x ++ y)%string).
  cbn [String.length Nat.add]. f_equal. exact IH.
Qed.

Lemma append_cancel_r (s x y : string) : (x ++ s = y ++ s)%string -> x = y.
Proof.
  intros H.
  assert (Hlen : String.length x = String.length y).
  { apply (f_equal String.length) in H. rewrite !length_append in H. lia. }
  revert y H Hlen. induction x as [|c x IH]; intros [|d y]; cbn [String.length];
    try discriminate; [reflexivity|].
  change (String c x ++ s)%string with (String c (x ++ s)%string).
  change (String d y ++ s)%string with (String d (y ++ s)%string).
  intros [= -> H] [= Hlen]. f_equal. auto.
Qed.

(** Joined lists that differ in one position are different texts. *)
Lemma concat_single_position (sep : string) (pre post : list string) (x y : string) :
  String.concat sep (pre ++ x :: post) = String.concat sep (pre ++ y :: post) -> x = y.
Proof.
  induction pre as [|p pre IH]; cbn [app].
  - destruct post as [|q post]; cbn [String.concat]; [auto|]. apply append_cancel_r.
  - assert (Hne : forall z, exists h t, pre ++ z :: post = h :: t).
    { intros z. destruct pre; cbn; eauto. }
    destruct (Hne x) as (hx & tx & Hx). destruct (Hne y) as (hy & ty & Hy).
    cbn [String.concat]. revert IH. rewrite Hx, Hy. intros IH H.
    apply append_cancel_l, append_cancel_l in H. auto.
Qed.

Lemma String_of_number_injective (n m : Z) :
  String_of_number n = String_of_number m -> n = m.
Proof.
  unfold String_of_number. intros H. apply DecimalZ.to_int_inj.
  assert (Hnorm : forall z, Z.to_int z <> Decimal.Pos Decimal.Nil
                            /\ Z.to_int z <> Decimal.Neg Decimal.Nil).
  { intros z. pose proof (DecimalZ.to_of (Z.to_int z)) as Hz. rewrite DecimalZ.of_to in Hz.
    split; intros E; rewrite E in Hz; discriminate Hz. }
  pose proof (NilZero.isi _ (proj1 (Hnorm n)) (proj2 (Hnorm n))) as Hn.
  pose proof (NilZero.isi _ (proj1 (Hnorm m)) (proj2 (Hnorm m))) as Hm.
  rewrite H in Hn. congruence.
Qed.

Lemma canonical_single_field (f : FieldName) (a b : SignatureInput) :
  agreeOutside f a b -> differAt f a b ->
  buildCanonicalString a <> buildCanonicalString b.
Proof.
  intros (H1 & H2 & H3 & H4 & H5 & H6 & H7 & H8) Hdiff Heq.
  unfold buildCanonicalString in Heq.
  destruct f; cbn [differAt] in Hdiff;
    repeat match goal with
           | H : _ \/ _ |- _ => destruct H as [H|H]; [discriminate H|]
           | H : ?x = ?x \/ _ |- _ => clear H
           end.
  - rewrite H2, H3, H4, H5, H6, H7, H8 in Heq.
    apply (concat_single_position _ []) in Heq. contradiction.
  - rewrite H1, H3, H4, H5, H6, H7, H8 in Heq.
    apply (concat_single_position _ [_]) in Heq. contradiction.
  - rewrite H1, H2, H4, H5, H6, H7, H8 in Heq.
    apply (concat_single_position _ [_; _]) in Heq. contradiction.
  - rewrite H1, H2, H3, H5, H6, H7, H8 in Heq.
    apply (concat_single_position _ [_; _; _]) in Heq. contradiction.
  - rewrite H1, H2, H3, H4, H6, H7, H8 in Heq.
    apply (concat_single_position _ [_; _; _; _]) in Heq. contradiction.
  - rewrite H1, H2, H3, H4, H5, H7, H8 in Heq.
    apply (concat_single_position _ [_; _; _; _; _]) in Heq. contradiction.
  - rewrite H1, H2, H3, H4, H5, H6, H8 in Heq.
    apply (concat_single_position _ [_; _; _; _; _; _]) in Heq.
    apply String_of_number_injective in Heq. contradiction.
  - rewrite H1, H2, H3, H4, H5, H6, H7 in Heq.
    apply (concat_single_position _ [_; _; _; _; _; _; _]) in Heq. contradiction.
Qed.

(** A key shorter than the block and the same key followed by a zero
    byte fill the same key block, hence give the same HMAC. *)
Lemma keyBlock_zero_padding (key : list byte) :
  (length key < Hmac.blockSize)%nat ->
  Hmac.keyBlock (key ++ [x00]) = Hmac.keyBlock key.
Proof.
  unfold Hmac.keyBlock, Hmac.blockSize. intros Hlen.
  rewrite length_app. cbn [length].
  destruct (Nat.ltb_spec 64 (length key + 1)); [lia|].
  destruct (Nat.ltb_spec 64 (length key)); [lia|].
  rewrite length_app. cbn [length]. rewrite <- app_assoc. f_equal.
  replace (64 - length key)%nat with (S (64 - (length key + 1))) by lia.
  reflexivity.
Qed.

Lemma utf8_append (a b : string) : Bytes.utf8 (a ++ b)%string = Bytes.utf8 a ++ Bytes.utf8 b.
Proof.
  unfold Bytes.utf8, list_byte_of_string. induction a as [|c a IH]; [reflexivity|].
  change (String c a ++ b)%string with (String c (a ++ b)%string).
  cbn [list_ascii_of_string map app]. f_equal. exact IH.
Qed.

Lemma length_utf8 (s : string) : length (Bytes.utf8 s) = String.length s.
Proof.
  unfold Bytes.utf8, list_byte_of_string. induction s as [|c s IH]; [reflexivity|].
  cbn [list_ascii_of_string map length String.length]. f_equal. exact IH.
Qed.

Lemma hmac_zero_padded_secret (secret canonical : string) :
  (String.length secret < 64)%nat ->
  hmacSha256Hex (secret ++ String (ascii_of_nat 0) EmptyString)%string canonical = hmacSha256Hex secret canonical.
Proof.
  intros Hlen. unfold hmacSha256Hex, Hmac.sha256.
  rewrite utf8_append. change (Bytes.utf8 (String (ascii_of_nat 0) EmptyString)) with [x00].
  rewrite keyBlock_zero_padding; [reflexivity|].
  rewrite length_utf8. exact Hlen.
Qed.

End CanonicalString.

Section SignatureRoundTrip.
Import Signature.

(** C3, counterexample. The design document has verification under a different
    secret return [false]. HMAC fills a key shorter than its 64-byte
    block with zero bytes, so [relay-secret-test] and the same text
    followed by a NUL character are two secrets with the same digests: a
    signature made with the first verifies under the second. *)
Lemma verifySignature_accepts_zero_padded_secret :
  let secret := "relay-secret-test" in
  let other := (secret ++ String (ascii_of_nat 0) EmptyString)%string in
  let canonical := buildCanonicalString
    {| method := "POST"; path := "/api/v1/training-uploads";
       clientId := "relay-client-test"; timestamp := "1700001234";
       nonce := "327dcf14-f6e9-41ea-8948-8c13823e3173";
       fileSha256 := "f98c51f9e91f0f64bcf8f4f6a04591057d58a1a5cbf8f6df53f94940f2dc0f87";
       fileSizeBytes := 100; schemaVersion := "1" |} in
  other <> secret
  /\ verifySignature other canonical (hmacSha256Hex secret canonical) = Normal true.
Proof.
  cbv zeta. split; [discriminate|]. vm_compute. reflexivity.
Qed.

(** C3, as amended. For every secret and every valid field tuple:
    the signature produced over the canonical string verifies under the
    same secret; changing exactly one field of the tuple changes the
    canonical string; and verifying that signature against any secret
    and any canonical string never throws and returns [true] exactly
    when the digest recomputed from them is the signature, so that a
    single-field change or another secret is refused whenever the
    recomputed digest differs. *)
Theorem verifySignature_round_trip_and_digest_match
    (secret : string) (input : SignatureInput) (Hvalid : validInput input) :
  let signature := hmacSha256Hex secret (buildCanonicalString input) in
  verifySignature secret (buildCanonicalString input) signature = Normal true
  /\ (forall (f : FieldName) (input' : SignatureInput),
        validInput input' -> agreeOutside f input input' -> differAt f input input' ->
        buildCanonicalString input' <> buildCanonicalString input)
  /\ (forall secret' canonical',
        verifySignature secret' canonical' signature
        = Normal (String.eqb signature (hmacSha256Hex secret' canonical'))).
Proof.
  cbv zeta.
  assert (Hspec : forall secret' canonical',
    verifySignature secret' canonical' (hmacSha256Hex secret (buildCanonicalString input))
    = Normal (String.eqb (hmacSha256Hex secret (buildCanonicalString input))
                         (hmacSha256Hex secret' canonical'))).
  { intros secret' canonical'. rewrite verifySignature_spec.
    destruct (hmacSha256Hex_shape secret (buildCanonicalString input)) as (_ & Hlow & _).
    rewrite (toLowerCase_lowerHex _ Hlow). reflexivity. }
  split; [rewrite Hspec, String.eqb_refl; reflexivity|].
  split; [|exact Hspec].
  intros f input' _ Hagree Hdiff Heq.
  exact (canonical_single_field f input input' Hagree Hdiff (eq_sym Heq)).
Qed.

End SignatureRoundTrip.

Lemma verifySignature_round_trip_and_digest_match_witness :
  let input := {| Signature.method := "POST"; Signature.path := "/api/v1/training-uploads";
                  Signature.clientId := "relay-client-test";
                  Signature.timestamp := "1700001234";
                  Signature.nonce := "327dcf14-f6e9-41ea-8948-8c13823e3173";
                  Signature.fileSha256 :=
                    "f98c51f9e91f0f64bcf8f4f6a04591057d58a1a5cbf8f6df53f94940f2dc0f87";
                  Signature.fileSizeBytes := 100; Signature.schemaVersion := "1" |} in
  Signature.validInput input
  /\ Signature.verifySignature "relay-secret-test" (Signature.buildCanonicalString input)
       (Signature.hmacSha256Hex "relay-secret-test" (Signature.buildCanonicalString input))
     = Normal true.
Proof.
  cbv zeta.
  assert (Hvalid : Signature.validInput
            {| Signature.method := "POST"; Signature.path := "/api/v1/training-uploads";
               Signature.clientId := "relay-client-test";
               Signature.timestamp := "1700001234";
               Signature.nonce := "327dcf14-f6e9-41ea-8948-8c13823e3173";
               Signature.fileSha256 :=
                 "f98c51f9e91f0f64bcf8f4f6a04591057d58a1a5cbf8f6df53f94940f2dc0f87";
               Signature.fileSizeBytes := 100; Signature.schemaVersion := "1" |})
    by (unfold Signature.validInput; simpl; lia).
  split; [exact Hvalid|].
  exact (proj1 (verifySignature_round_trip_and_digest_match "relay-secret-test" _ Hvalid)).
Defined.

(** ** Redemption *)

Section RedeemSequential.

Import Redeem.
Context (P : Platform).

Lemma nonEmpty_true (s : string) : Hex.nonEmpty s = true <-> s <> EmptyString.
Proof. destruct s; cbn; split; intros; congruence. Qed.

Lemma zodNonEmptyString_Some (v : option json) (s : string) :
  zodNonEmptyString v = Some s <-> v = Some (JString s) /\ s <> EmptyString.
Proof.
  unfold zodNonEmptyString.
  destruct v as [[| | |t| |]|]; try (split; [discriminate|intros [? _]; discriminate]).
  destruct (Hex.nonEmpty t) eqn:Ht.
  - apply nonEmpty_true in Ht. split; [intros [= ->]; auto|intros [[= ->] _]; reflexivity].
  - split; [discriminate|]. intros [[= ->] Hs]. apply nonEmpty_true in Hs. congruence.
Qed.

(** The schema fails exactly on the bodies the contract calls
    structurally invalid. *)
Lemma RedeemBodySchema_None (requestBody : json) :
  RedeemBodySchema P requestBody = None <-> structurallyInvalid P requestBody.
Proof.
  unfold RedeemBodySchema, structurallyInvalid.
  destruct requestBody as [| | | | |members]; try tauto.
  destruct (zodNonEmptyString (member "inviteCode" members)) as [code|] eqn:Hcode; cbn.
  2:{ split; [intros _|reflexivity]. left. intros (s & Hs & Hne).
      assert (zodNonEmptyString (member "inviteCode" members) = Some s)
        by (apply zodNonEmptyString_Some; auto). congruence. }
  apply zodNonEmptyString_Some in Hcode as [Hcode Hcne].
  destruct (member "installId" members) as [[| | |inst| |]|] eqn:Hinst; cbn;
    try (split; [intros _|reflexivity]; right; left; intros (s & Hs & _); discriminate).
  destruct (zodUuid P inst) eqn:Huuid; cbn.
  2:{ split; [intros _|reflexivity]. right; left. intros (s & [= <-] & Hs). congruence. }
  destruct (zodNonEmptyString (member "modVersion" members)) as [ver|] eqn:Hver; cbn.
  2:{ split; [intros _|reflexivity]. right; right. intros (s & Hs & Hne).
      assert (zodNonEmptyString (member "modVersion" members) = Some s)
        by (apply zodNonEmptyString_Some; auto). congruence. }
  apply zodNonEmptyString_Some in Hver as [Hver Hvne].
  split; [discriminate|]. intros [H|[H|H]]; exfalso; apply H; eauto.
Qed.

(** C10. A redeem request whose body is structurally invalid is answered
    400 INVITE_INVALID. The store is left as it was and is not consulted:
    the reply is the same whatever the store, the clock and the random
    source are. It is the reply an unknown invite code gets. *)
Theorem redeem_malformed_body_is_invite_invalid
    (db : Database) (env : Env) (requestBody : json) :
  structurallyInvalid P requestBody ->
  redeem P db env requestBody = (Normal (mkReply 400 (apiError INVITE_INVALID)), db)
  /\ (forall db' env',
        fst (redeem P db' env' requestBody) = Normal (mkReply 400 (apiError INVITE_INVALID)))
  /\ (forall unknown parsed,
        RedeemBodySchema P unknown = Some parsed ->
        invite_codes db !! Signature.hashInviteCode (inviteCode parsed) = None ->
        redeem P db env unknown = redeem P db env requestBody).
Proof.
  intros Hbad. apply RedeemBodySchema_None in Hbad.
  assert (Hany : forall d e, redeem P d e requestBody
                             = (Normal (mkReply 400 (apiError INVITE_INVALID)), d)).
  { intros d e. unfold redeem, lookupInvite. rewrite Hbad. reflexivity. }
  split; [apply Hany|]. split; [intros; rewrite Hany; reflexivity|].
  intros unknown parsed Hparsed Hnone. rewrite Hany.
  unfold redeem, lookupInvite. rewrite Hparsed. cbn [pendingFor codeHash].
  rewrite Hnone. reflexivity.
Qed.

(** C8. When the invite named by a valid request exists and its
    [expires_at] is set to an instant not after [now], redeem answers
    410 INVITE_EXPIRED and changes nothing, whatever [used_count] and
    [max_uses] are: the expiry check comes before the usage check. *)
Theorem redeem_expired_invite_is_invite_expired
    (db : Database) (env : Env) (requestBody : json)
    (parsed : RedeemBody) (invite : InviteCodeRecord.t) (text : string) (expiresAt : Z) :
  RedeemBodySchema P requestBody = Some parsed ->
  invite_codes db !! Signature.hashInviteCode (inviteCode parsed) = Some invite ->
  InviteCodeRecord.expires_at invite = Some text ->
  text <> EmptyString ->
  dateGetTime P text = Some expiresAt ->
  expiresAt <= now env ->
  redeem P db env requestBody = (Normal (mkReply 410 (apiError INVITE_EXPIRED)), db).
Proof.
  intros Hparsed Hinvite Htext Hne Hdate Hle.
  unfold redeem, lookupInvite. rewrite Hparsed. cbn [pendingFor codeHash].
  rewrite Hinvite. unfold isExpired. rewrite Htext, Hdate.
  rewrite (proj2 (nonEmpty_true text) Hne). cbn [andb].
  rewrite (proj2 (Z.leb_le _ _) Hle). reflexivity.
Qed.

End RedeemSequential.

Lemma redeem_expired_invite_is_invite_expired_witness :
  let invite := inviteFor "invite-expired" 1 1 (Some "2000-01-01T00:00:00.000Z") in
  let db := withInvite emptyDatabase invite in
  let env := redeemEnv 1700000000000 x01 in
  let requestBody := redeemBody "invite-expired" installA in
  invite_codes db !! Signature.hashInviteCode "invite-expired" = Some invite
  /\ dateGetTime platform "2000-01-01T00:00:00.000Z" = Some 946684800000
  /\ 946684800000 <= Redeem.now env
  /\ InviteCodeRecord.max_uses invite <= InviteCodeRecord.used_count invite
  /\ Redeem.redeem platform db env requestBody
     = (Normal (mkReply 410 (Redeem.apiError INVITE_EXPIRED)), db).
Proof.
  cbv zeta.
  assert (Hinvite : invite_codes
            (withInvite emptyDatabase
               (inviteFor "invite-expired" 1 1 (Some "2000-01-01T00:00:00.000Z")))
            !! Signature.hashInviteCode "invite-expired"
          = Some (inviteFor "invite-expired" 1 1 (Some "2000-01-01T00:00:00.000Z")))
    by (vm_compute; reflexivity).
  assert (Hdate : dateGetTime platform "2000-01-01T00:00:00.000Z" = Some 946684800000)
    by (vm_compute; reflexivity).
  assert (Hpast : 946684800000 <= Redeem.now (redeemEnv 1700000000000 x01))
    by (simpl; lia).
  split; [exact Hinvite|]. split; [exact Hdate|]. split; [exact Hpast|].
  split; [simpl; lia|].
  apply (redeem_expired_invite_is_invite_expired platform _ _ _
           {| Redeem.inviteCode := "invite-expired"; Redeem.installId := installA;
              Redeem.modVersion := "1.0.0" |}
           (inviteFor "invite-expired" 1 1 (Some "2000-01-01T00:00:00.000Z"))
           "2000-01-01T00:00:00.000Z" 946684800000);
    [ vm_compute; reflexivity | exact Hinvite | reflexivity | discriminate
    | exact Hdate | exact Hpast ].
Defined.

Lemma redeem_malformed_body_is_invite_invalid_witness :
  let requestBody := redeemBody "invite-valid" "not-a-uuid" in
  Redeem.structurallyInvalid platform requestBody
  /\ Redeem.redeem platform emptyDatabase (redeemEnv 1700000000000 x01) requestBody
     = (Normal (mkReply 400 (Redeem.apiError INVITE_INVALID)), emptyDatabase).
Proof.
  cbv zeta.
  assert (Hbad : Redeem.structurallyInvalid platform (redeemBody "invite-valid" "not-a-uuid")).
  { right; left. intros (s & Hs & Huuid). vm_compute in Hs. injection Hs as <-.
    vm_compute in Huuid. discriminate. }
  split; [exact Hbad|].
  exact (proj1 (redeem_malformed_body_is_invite_invalid platform emptyDatabase
                  (redeemEnv 1700000000000 x01) _ Hbad)).
Defined.

Section RedeemTransaction.

Import Redeem.

Lemma tx_commits (p : Pending) (db : Database) (invite : InviteCodeRecord.t) :
  invite_codes db !! codeHash p = Some invite ->
  InviteCodeRecord.used_count invite < InviteCodeRecord.max_uses invite ->
  clients db !! clientId p = None ->
  tx p db = (Normal tt, committed p invite db).
Proof.
  intros Hinv Hlt Hfresh. unfold tx, transaction, txBody, guardedIncrement.
  rewrite Hinv, (proj2 (Z.ltb_lt _ _) Hlt). cbn [Z.eqb Pos.eqb negb].
  unfold insertClient. cbn [clients withInviteCodes]. rewrite Hfresh. reflexivity.
Qed.

Lemma tx_guard_fails (p : Pending) (db : Database) :
  (forall invite, invite_codes db !! codeHash p = Some invite ->
                  InviteCodeRecord.max_uses invite <= InviteCodeRecord.used_count invite) ->
  tx p db = (Throw (Error "INVITE_ALREADY_USED"), db).
Proof.
  intros Hguard. unfold tx, transaction, txBody, guardedIncrement.
  destruct (invite_codes db !! codeHash p) as [invite|]; [|reflexivity].
  specialize (Hguard invite eq_refl).
  rewrite (proj2 (Z.ltb_ge _ _) Hguard). reflexivity.
Qed.

Lemma tx_collision (p : Pending) (db : Database) (invite : InviteCodeRecord.t) (c : ClientRecord.t) :
  invite_codes db !! codeHash p = Some invite ->
  InviteCodeRecord.used_count invite < InviteCodeRecord.max_uses invite ->
  clients db !! clientId p = Some c ->
  tx p db = (Throw (primaryKeyViolation "clients.client_id"), db).
Proof.
  intros Hinv Hlt Htaken. unfold tx, transaction, txBody, guardedIncrement.
  rewrite Hinv, (proj2 (Z.ltb_lt _ _) Hlt). cbn [Z.eqb Pos.eqb negb].
  unfold insertClient. cbn [clients withInviteCodes]. rewrite Htaken. reflexivity.
Qed.

(** A transaction either commits both changes or leaves the store alone. *)
Lemma tx_outcome (p : Pending) (db : Database) :
  (exists invite,
      invite_codes db !! codeHash p = Some invite
      /\ InviteCodeRecord.used_count invite < InviteCodeRecord.max_uses invite
      /\ clients db !! clientId p = None
      /\ tx p db = (Normal tt, committed p invite db))
  \/ (exists e, tx p db = (Throw e, db)).
Proof.
  destruct (invite_codes db !! codeHash p) as [invite|] eqn:Hinv.
  - destruct (Z.lt_ge_cases (InviteCodeRecord.used_count invite)
                            (InviteCodeRecord.max_uses invite)) as [Hlt|Hge].
    + destruct (clients db !! clientId p) as [c|] eqn:Hc.
      * right. eexists. eapply tx_collision; eauto.
      * left. exists invite. auto using tx_commits.
    + right. eexists. apply tx_guard_fails. intros i Hi. congruence.
  - right. eexists. apply tx_guard_fails. intros i Hi. congruence.
Qed.

Lemma totalUsed_countUse (db : Database) (h : string) (invite : InviteCodeRecord.t)
    (cs : gmap string ClientRecord.t) :
  invite_codes db !! h = Some invite ->
  totalUsed (withClients (withInviteCodes db (<[h := countUse invite]> (invite_codes db))) cs)
  = totalUsed db + 1.
Proof.
  intros Hinv. unfold totalUsed. cbn [invite_codes withInviteCodes withClients].
  rewrite <- (insert_delete_id (invite_codes db) h invite Hinv) at 2.
  rewrite <- (insert_delete_eq (invite_codes db) h (countUse invite)).
  rewrite !map_fold_insert_L; try apply lookup_delete_eq; try (intros; lia).
  cbn [countUse InviteCodeRecord.used_count]. lia.
Qed.

Lemma evolves_refl (db : Database) : evolves db db.
Proof. split; [|reflexivity]. intros h invite H. exists invite. repeat split; auto; lia. Qed.

Lemma evolves_trans (a b c : Database) : evolves a b -> evolves b c -> evolves a c.
Proof.
  intros [Hab Hab'] [Hbc Hbc']. split; [|congruence].
  intros h i Hi. destruct (Hab h i Hi) as (j & Hj & Hm & Hu & Hcap).
  destruct (Hbc h j Hj) as (k & Hk & Hm' & Hu' & Hcap').
  exists k. repeat split; auto; try congruence; try lia.
Qed.

Lemma evolves_committed (p : Pending) (db : Database) (invite : InviteCodeRecord.t) :
  invite_codes db !! codeHash p = Some invite ->
  InviteCodeRecord.used_count invite < InviteCodeRecord.max_uses invite ->
  clients db !! clientId p = None ->
  evolves db (committed p invite db).
Proof.
  intros Hinv Hlt Hfresh. split.
  - intros h i Hi. unfold committed. cbn [invite_codes withClients withInviteCodes].
    destruct (decide (codeHash p = h)) as [<-|Hne].
    + rewrite lookup_insert_eq. exists (countUse invite).
      assert (i = invite) by congruence. subst i.
      cbn [countUse InviteCodeRecord.used_count InviteCodeRecord.max_uses].
      repeat split; auto; lia.
    + rewrite lookup_insert_ne by exact Hne. exists i. repeat split; auto; lia.
  - unfold committed. rewrite totalUsed_countUse by exact Hinv.
    unfold issued. cbn [clients withClients].
    rewrite map_size_insert_None by exact Hfresh. lia.
Qed.

Lemma evolves_tx (p : Pending) (db : Database) : evolves db (snd (tx p db)).
Proof.
  destruct (tx_outcome p db) as [(invite & Hinv & Hlt & Hfresh & ->)|(e & ->)]; cbn [snd].
  - apply evolves_committed; assumption.
  - apply evolves_refl.
Qed.

Context (P : Platform).

Lemma evolves_step (i : nat) (s : System) : evolves (store s) (store (stepThread P i s)).
Proof.
  unfold stepThread. destruct (threads s !! i) as [[env b|p|r]|]; cbn [store];
    try apply evolves_refl.
  pose proof (evolves_tx p (store s)) as H.
  destruct (tx p (store s)) as [outcome db']. exact H.
Qed.

Lemma evolves_run (schedule : list nat) (s : System) :
  evolves (store s) (store (run P schedule s)).
Proof.
  revert s. induction schedule as [|i schedule IH]; intros s; cbn [run fold_left].
  - apply evolves_refl.
  - eapply evolves_trans; [apply evolves_step|apply IH].
Qed.

End RedeemTransaction.

Section RedeemRace.

Import Redeem.
Context (P : Platform) (db : Database) (invite : InviteCodeRecord.t).

Lemma lookupInvite_open (env : Env) (requestBody : json) (parsed : RedeemBody) :
  RedeemBodySchema P requestBody = Some parsed ->
  invite_codes db !! codeHash (pendingFor env parsed) = Some invite ->
  isExpired P invite (now env) = false ->
  InviteCodeRecord.used_count invite < InviteCodeRecord.max_uses invite ->
  lookupInvite P db env requestBody = inr (pendingFor env parsed).
Proof.
  intros Hparsed Hinv Hlive Hlt. unfold lookupInvite.
  rewrite Hparsed. cbv zeta. rewrite Hinv, Hlive.
  rewrite Z.geb_leb, (proj2 (Z.leb_gt _ _) Hlt). reflexivity.
Qed.

Lemma lookupInvite_used_up (env : Env) (requestBody : json) (parsed : RedeemBody) :
  RedeemBodySchema P requestBody = Some parsed ->
  invite_codes db !! codeHash (pendingFor env parsed) = Some invite ->
  isExpired P invite (now env) = false ->
  InviteCodeRecord.max_uses invite <= InviteCodeRecord.used_count invite ->
  lookupInvite P db env requestBody = inl alreadyUsed.
Proof.
  intros Hparsed Hinv Hlive Hge. unfold lookupInvite.
  rewrite Hparsed. cbv zeta. rewrite Hinv, Hlive.
  rewrite Z.geb_leb, (proj2 (Z.leb_le _ _) Hge). reflexivity.
Qed.

End RedeemRace.

Section TwoRacers.

Import Redeem.
Context (P : Platform) (db : Database) (invite : InviteCodeRecord.t)
        (env1 env2 : Env) (body1 body2 : json) (parsed1 parsed2 : RedeemBody).

Abbreviation p1 := (pendingFor env1 parsed1).
Abbreviation p2 := (pendingFor env2 parsed2).
Abbreviation Reach := (Race db invite env1 env2 body1 body2 p1 p2).

Hypothesis Hbody1 : RedeemBodySchema P body1 = Some parsed1.
Hypothesis Hbody2 : RedeemBodySchema P body2 = Some parsed2.
Hypothesis Hsame : inviteCode parsed2 = inviteCode parsed1.
Hypothesis Hinvite : invite_codes db !! Signature.hashInviteCode (inviteCode parsed1) = Some invite.
Hypothesis Hmax : InviteCodeRecord.max_uses invite = 1.
Hypothesis Hused : InviteCodeRecord.used_count invite = 0.
Hypothesis Hlive1 : isExpired P invite (now env1) = false.
Hypothesis Hlive2 : isExpired P invite (now env2) = false.
Hypothesis Hfresh1 : clients db !! clientId p1 = None.
Hypothesis Hfresh2 : clients db !! clientId p2 = None.

Lemma race_hash : codeHash p2 = codeHash p1.
Proof. cbn [pendingFor codeHash]. rewrite Hsame. reflexivity. Qed.

Lemma race_lookup1 : lookupInvite P db env1 body1 = inr p1.
Proof. apply (lookupInvite_open P db invite); auto; lia. Qed.

Lemma race_lookup2 : lookupInvite P db env2 body2 = inr p2.
Proof.
  apply (lookupInvite_open P db invite); auto; [|lia].
  rewrite race_hash. exact Hinvite.
Qed.

Lemma race_tx1 : tx p1 db = (Normal tt, committed p1 invite db).
Proof. apply tx_commits; auto; lia. Qed.

Lemma race_tx2 : tx p2 db = (Normal tt, committed p2 invite db).
Proof. apply tx_commits; auto; [|lia]. rewrite race_hash. exact Hinvite. Qed.

(** After either commit the invite shows one use, whoever looks. *)
Lemma race_counted (p q : Pending) :
  codeHash p = codeHash p1 -> codeHash q = codeHash p1 ->
  invite_codes (committed p invite db) !! codeHash q = Some (countUse invite).
Proof.
  intros Hp Hq. unfold committed. cbn [invite_codes withClients withInviteCodes].
  rewrite Hp, Hq. apply lookup_insert_eq.
Qed.

Lemma race_late_lookup (p : Pending) (env : Env) (requestBody : json) (parsed : RedeemBody) :
  codeHash p = codeHash p1 -> codeHash (pendingFor env parsed) = codeHash p1 ->
  RedeemBodySchema P requestBody = Some parsed ->
  isExpired P invite (now env) = false ->
  lookupInvite P (committed p invite db) env requestBody = inl alreadyUsed.
Proof.
  intros Hp Hq Hparsed Hlive.
  apply (lookupInvite_used_up P _ (countUse invite) env requestBody parsed);
    [ exact Hparsed
    | apply race_counted; assumption
    | exact Hlive
    | cbn [countUse InviteCodeRecord.max_uses InviteCodeRecord.used_count]; lia ].
Qed.

Lemma race_late_tx (p q : Pending) :
  codeHash p = codeHash p1 -> codeHash q = codeHash p1 ->
  tx q (committed p invite db) = (Throw (Error "INVITE_ALREADY_USED"), committed p invite db).
Proof.
  intros Hp Hq. apply tx_guard_fails. intros i Hi.
  rewrite (race_counted p q Hp Hq) in Hi. injection Hi as <-.
  cbn [countUse InviteCodeRecord.max_uses InviteCodeRecord.used_count]. lia.
Qed.

Lemma race_step (i : nat) (s : System) : Reach s -> Reach (stepThread P i s).
Proof.
  pose proof race_hash as Hh.
  intros [t1 t2 H1 H2 | t2 H2 | t1 H1]; destruct i as [|[|i]];
    unfold stepThread; cbn [threads store lookup list_lookup].
  - destruct H1 as [->| ->].
    + rewrite race_lookup1. cbn. apply race_open; tauto.
    + rewrite race_tx1. cbn. apply race_first_won; tauto.
  - destruct H2 as [->| ->].
    + rewrite race_lookup2. cbn. apply race_open; tauto.
    + rewrite race_tx2. cbn. apply race_second_won; tauto.
  - destruct t1, t2; apply race_open; tauto.
  - apply race_first_won; tauto.
  - destruct H2 as [->|[->| ->]].
    + rewrite (race_late_lookup p1 env2 body2 parsed2); auto.
      cbn. apply race_first_won; tauto.
    + rewrite (race_late_tx p1 p2); auto. cbn. apply race_first_won; tauto.
    + apply race_first_won; tauto.
  - destruct t2; apply race_first_won; tauto.
  - destruct H1 as [->|[->| ->]].
    + rewrite (race_late_lookup p2 env1 body1 parsed1); auto.
      cbn. apply race_second_won; tauto.
    + rewrite (race_late_tx p2 p1); auto. cbn. apply race_second_won; tauto.
    + apply race_second_won; tauto.
  - apply race_second_won; tauto.
  - destruct t1; apply race_second_won; tauto.
Qed.

Lemma race_run (schedule : list nat) (s : System) : Reach s -> Reach (run P schedule s).
Proof.
  revert s. induction schedule as [|i schedule IH]; intros s Hs; cbn [run fold_left];
    [exact Hs|]. apply IH, race_step, Hs.
Qed.

Lemma race_settled (s : System) :
  Reach s -> allFinished s = true ->
  (s = mkSystem (committed p1 invite db)
                [Finished (Normal (success p1)); Finished (Normal alreadyUsed)]
   \/ s = mkSystem (committed p2 invite db)
                   [Finished (Normal alreadyUsed); Finished (Normal (success p2))]).
Proof.
  intros [t1 t2 H1 H2 | t2 H2 | t1 H1] Hdone; unfold allFinished in Hdone;
    cbn [threads forallb] in Hdone.
  - destruct H1 as [->| ->]; discriminate Hdone.
  - destruct H2 as [->|[->| ->]]; try discriminate Hdone. left. reflexivity.
  - destruct H1 as [->|[->| ->]]; try discriminate Hdone. right. reflexivity.
Qed.

Lemma race_interleaved :
  run P [0; 1; 0; 1]%nat (mkSystem db [Arrived env1 body1; Arrived env2 body2])
  = mkSystem (committed p1 invite db)
             [Finished (Normal (success p1)); Finished (Normal alreadyUsed)].
Proof.
  cbn [run fold_left]. unfold stepThread at 4. cbn [threads store lookup list_lookup].
  rewrite race_lookup1. cbn [insert list_insert].
  unfold stepThread at 3. cbn [threads store lookup list_lookup].
  rewrite race_lookup2. cbn [insert list_insert].
  unfold stepThread at 2. cbn [threads store lookup list_lookup].
  rewrite race_tx1. cbn [insert list_insert].
  unfold stepThread at 1. cbn [threads store lookup list_lookup].
  rewrite (race_late_tx p1 p2) by auto using race_hash. reflexivity.
Qed.

End TwoRacers.

Section RedeemLedger.
Import Redeem.

Lemma tx_zero_rows (p : Pending) (db : Database) :
  fst (guardedIncrement db (codeHash p)) = 0 ->
  tx p db = (Throw (Error "INVITE_ALREADY_USED"), db).
Proof.
  intros Hzero. apply tx_guard_fails. intros invite Hinv.
  unfold guardedIncrement in Hzero. rewrite Hinv in Hzero.
  destruct (Z.ltb_spec (InviteCodeRecord.used_count invite) (InviteCodeRecord.max_uses invite));
    [discriminate Hzero|assumption].
Qed.

(** C1. First, one transaction: it either commits the increment of
    [used_count] together with the new credential row, or throws and
    leaves the store as it was; so a credential row is inserted exactly
    when the increment is committed, and when the guarded update changes
    no row the transaction aborts with the sentinel, which the handler
    answers 409 INVITE_ALREADY_USED. Second, any number of requests in
    flight, stepped in any order: every invite keeps its cap, its
    [used_count] never decreases and stays within [max_uses] if it was,
    and the credentials on record grow by exactly the uses counted.
    Third, two requests racing for a live invite with [max_uses = 1] and
    [used_count = 0]: some schedule runs both to completion, and however
    their steps interleave, once both have finished exactly one of them
    got credentials, the other got INVITE_ALREADY_USED, [used_count] is
    1 and one credential was added. *)
Theorem redeem_counts_and_credentials_go_together (P : Platform) :
  (forall p db,
      (exists invite,
          invite_codes db !! codeHash p = Some invite
          /\ InviteCodeRecord.used_count invite < InviteCodeRecord.max_uses invite
          /\ clients db !! clientId p = None
          /\ tx p db = (Normal tt, committed p invite db)
          /\ conclude p (Normal tt) = Normal (success p))
      \/ (exists e,
            tx p db = (Throw e, db)
            /\ (fst (guardedIncrement db (codeHash p)) = 0 ->
                e = Error "INVITE_ALREADY_USED"
                /\ conclude p (Throw e) = Normal alreadyUsed)))
  /\ (forall p db,
        (clients db !! clientId p = None
         /\ clients (snd (tx p db)) !! clientId p = Some (credentialRow p))
        <-> (exists invite,
               invite_codes db !! codeHash p = Some invite
               /\ invite_codes (snd (tx p db)) !! codeHash p = Some (countUse invite)))
  /\ (forall schedule s, evolves (store s) (store (run P schedule s)))
  /\ (forall db invite env1 env2 body1 body2 parsed1 parsed2,
        RedeemBodySchema P body1 = Some parsed1 ->
        RedeemBodySchema P body2 = Some parsed2 ->
        inviteCode parsed2 = inviteCode parsed1 ->
        invite_codes db !! Signature.hashInviteCode (inviteCode parsed1) = Some invite ->
        InviteCodeRecord.max_uses invite = 1 ->
        InviteCodeRecord.used_count invite = 0 ->
        isExpired P invite (now env1) = false ->
        isExpired P invite (now env2) = false ->
        clients db !! clientId (pendingFor env1 parsed1) = None ->
        clients db !! clientId (pendingFor env2 parsed2) = None ->
        let s0 := mkSystem db [Arrived env1 body1; Arrived env2 body2] in
        allFinished (run P [0; 1; 0; 1]%nat s0) = true
        /\ forall schedule,
             allFinished (run P schedule s0) = true ->
             (threads (run P schedule s0)
              = [Finished (Normal (success (pendingFor env1 parsed1)));
                 Finished (Normal alreadyUsed)]
              \/ threads (run P schedule s0)
                 = [Finished (Normal alreadyUsed);
                    Finished (Normal (success (pendingFor env2 parsed2)))])
             /\ (exists invite',
                   invite_codes (store (run P schedule s0))
                     !! Signature.hashInviteCode (inviteCode parsed1) = Some invite'
                   /\ InviteCodeRecord.used_count invite' = 1)
             /\ issued (store (run P schedule s0)) = issued db + 1).
Proof.
  split; [|split; [|split]].
  - intros p db. destruct (tx_outcome p db) as [(invite & Hi & Hlt & Hf & Htx)|(e & Htx)].
    + left. exists invite. auto 10.
    + right. exists e. split; [exact Htx|]. intros Hzero.
      rewrite (tx_zero_rows p db Hzero) in Htx. injection Htx as <-. auto.
  - intros p db. destruct (tx_outcome p db) as [(invite & Hi & Hlt & Hf & ->)|(e & ->)];
      cbn [snd committed clients invite_codes withClients withInviteCodes].
    + rewrite !lookup_insert_eq. split; [intros _; eauto|auto].
    + split; [intros [H1 H2]; congruence|].
      intros (invite & H1 & H2). rewrite H1 in H2. injection H2 as H2.
      apply (f_equal InviteCodeRecord.used_count) in H2.
      cbn [countUse InviteCodeRecord.used_count] in H2. lia.
  - intros schedule s. apply evolves_run.
  - intros db invite env1 env2 body1 body2 parsed1 parsed2
           Hb1 Hb2 Hsame Hinv Hmax Hused Hl1 Hl2 Hf1 Hf2 s0.
    split.
    + unfold s0. rewrite (race_interleaved P db invite env1 env2 body1 body2 parsed1 parsed2)
        by assumption. reflexivity.
    + intros schedule Hdone.
      assert (Hreach : Race db invite env1 env2 body1 body2
                         (pendingFor env1 parsed1) (pendingFor env2 parsed2)
                         (run P schedule s0)).
      { apply (race_run P db invite env1 env2 body1 body2 parsed1 parsed2); auto.
        apply race_open; auto. }
      destruct (race_settled db invite env1 env2 body1 body2 parsed1 parsed2 _ Hreach Hdone)
        as [-> | ->]; cbn [threads store].
      * split; [auto|]. split.
        -- exists (countUse invite). split.
           ++ apply (race_counted db invite env1 parsed1
                       (pendingFor env1 parsed1) (pendingFor env1 parsed1)); reflexivity.
           ++ cbn [countUse InviteCodeRecord.used_count]. lia.
        -- unfold issued, committed. cbn [clients withClients].
           rewrite map_size_insert_None by assumption. lia.
      * split; [auto|]. split.
        -- exists (countUse invite). split.
           ++ apply (race_counted db invite env1 parsed1
                       (pendingFor env2 parsed2) (pendingFor env1 parsed1)); [|reflexivity].
              cbn [pendingFor codeHash]. rewrite Hsame. reflexivity.
           ++ cbn [countUse InviteCodeRecord.used_count]. lia.
        -- unfold issued, committed. cbn [clients withClients].
           rewrite map_size_insert_None by assumption. lia.
Qed.

End RedeemLedger.

Lemma redeem_counts_and_credentials_go_together_witness :
  let db := withInvite emptyDatabase (inviteFor "invite-valid" 1 0 None) in
  let env1 := redeemEnv 1700000000000 x01 in
  let env2 := redeemEnv 1700000000005 x02 in
  let body1 := redeemBody "invite-valid" installA in
  let body2 := redeemBody "invite-valid" installB in
  let s' := Redeem.run platform [1; 0; 0; 1]%nat
              (Redeem.mkSystem db [Redeem.Arrived env1 body1; Redeem.Arrived env2 body2]) in
  invite_codes db !! Signature.hashInviteCode "invite-valid"
  = Some (inviteFor "invite-valid" 1 0 None)
  /\ Redeem.allFinished s' = true
  /\ (exists invite',
        invite_codes (Redeem.store s') !! Signature.hashInviteCode "invite-valid" = Some invite'
        /\ InviteCodeRecord.used_count invite' = 1)
  /\ Redeem.issued (Redeem.store s') = 1.
Proof.
  cbv zeta.
  split; [vm_compute; reflexivity|]. split; [vm_compute; reflexivity|].
  pose proof (proj2 (proj2 (proj2 (redeem_counts_and_credentials_go_together platform)))
    (withInvite emptyDatabase (inviteFor "invite-valid" 1 0 None))
    (inviteFor "invite-valid" 1 0 None)
    (redeemEnv 1700000000000 x01) (redeemEnv 1700000000005 x02)
    (redeemBody "invite-valid" installA) (redeemBody "invite-valid" installB)
    {| Redeem.inviteCode := "invite-valid"; Redeem.installId := installA;
       Redeem.modVersion := "1.0.0" |}
    {| Redeem.inviteCode := "invite-valid"; Redeem.installId := installB;
       Redeem.modVersion := "1.0.0" |}) as H.
  destruct H as [_ H];
    [vm_compute; reflexivity | vm_compute; reflexivity | reflexivity
    | vm_compute; reflexivity | reflexivity | reflexivity | reflexivity | reflexivity
    | vm_compute; reflexivity | vm_compute; reflexivity |].
  destruct (H [1; 0; 0; 1]%nat) as (_ & Hused & Hissued); [vm_compute; reflexivity|].
  split; [exact Hused|exact Hissued].
Defined.

(** ** Upload *)

Lemma toLowerCase_idempotent (s : string) :
  Hex.toLowerCase (Hex.toLowerCase s) = Hex.toLowerCase s.
Proof.
  induction s as [|c s IH]; [reflexivity|]. cbn [Hex.toLowerCase]. rewrite IH. f_equal.
  destruct c as [[] [] [] [] [] [] [] []]; reflexivity.
Qed.

Section UploadSteps.

Import Upload.
Context (P : Platform) (config : AppConfig) (env : Env) (request : Request).

Abbreviation rid := (requestId env).
Abbreviation claimedId := (x_scamscreener_client_id <$> UploadHeadersSchema P (headers request)).

Lemma fmap_run {A B} (f : A -> B) (m : M A) (w : World) :
  (f <$> m) w = match m w with
                | (Normal a, w') => (Normal (f a), w')
                | (Throw e, w') => (Throw e, w')
                end.
Proof. reflexivity. Qed.

Lemma bind_run {A B} (f : A -> M B) (m : M A) (w : World) :
  (m ≫= f) w = match m w with
               | (Normal a, w') => f a w'
               | (Throw e, w') => (Throw e, w')
               end.
Proof. reflexivity. Qed.

Lemma sendError_run (statusCode : Z) (errorCode : ApiErrorCode)
    (clientId : option string) (w : World) :
  let reply := mkReply statusCode (uploadError errorCode rid) in
  sendError env request statusCode errorCode clientId w
  = match storageFault env InsertAudit with
    | Some e => (Throw e, w)
    | None =>
        match upload_audit (db w) !! rid with
        | Some _ => (Throw (primaryKeyViolation "upload_audit.request_id"), w)
        | None => (Normal reply, recorded env request clientId "REJECTED" (Some errorCode) reply w)
        end
    end.
Proof.
  cbv beta iota zeta delta
    [sendError writeAuditRow send statement emit recorded mbind M_bind mret M_ret].
  destruct (storageFault env InsertAudit); [reflexivity|].
  destruct (upload_audit (db w) !! rid); [reflexivity|].
  cbn [db trace]. rewrite <- app_assoc. reflexivity.
Qed.

(** A rejection either is recorded and sent, or the audit insert
    throws and nothing is sent. *)
Lemma sendError_outcome (statusCode : Z) (errorCode : ApiErrorCode)
    (clientId : option string) (w : World) :
  let reply := mkReply statusCode (uploadError errorCode rid) in
  (auditReady env (db w)
   /\ sendError env request statusCode errorCode clientId w
      = (Normal reply, recorded env request clientId "REJECTED" (Some errorCode) reply w))
  \/ (~ auditReady env (db w)
      /\ exists e, sendError env request statusCode errorCode clientId w = (Throw e, w)).
Proof.
  cbv zeta. rewrite sendError_run. unfold auditReady.
  destruct (storageFault env InsertAudit) as [e|].
  { right. split; [intros [? _]; discriminate|eauto]. }
  destruct (upload_audit (db w) !! rid) as [r|].
  { right. split; [intros [_ ?]; discriminate|eauto]. }
  left. auto.
Qed.

Lemma identify_outcome (w : World) :
  IdentifyOutcome P config env request w (identify P config env request w).
Proof.
  assert (Hreject : forall code,
    code = AUTH_FAILED
    \/ (code = NONCE_REPLAY /\ nonceOnRecord P request (db w) true)
    \/ (code = PAYLOAD_INVALID /\ nonceOnRecord P request (db w) false) ->
    IdentifyOutcome P config env request w
      ((inl <$> sendError env request (statusOf code) code claimedId) w)).
  { intros code Hcode. rewrite fmap_run.
    destruct (sendError_outcome (statusOf code) code claimedId w)
      as [[Hready ->]|[Hnot (e & ->)]].
    - apply identify_rejects; assumption.
    - apply identify_throws. right. exact Hnot. }
  unfold identify.
  destruct (UploadHeadersSchema P (headers request)) as [h|] eqn:Hh;
    [|apply (Hreject AUTH_FAILED); auto].
  cbv zeta. unfold clientIdForAudit.
  change (Some (x_scamscreener_client_id h)) with (x_scamscreener_client_id <$> Some h).
  destruct (Nonces.isTimestampWithinSkew _ _ _) eqn:Hskew; cbn [negb];
    [|apply (Hreject AUTH_FAILED); auto].
  rewrite bind_run. unfold statement at 1.
  destruct (storageFault env SelectClient) as [e|] eqn:Hf1.
  { apply identify_throws. left. exists SelectClient. congruence. }
  cbn [db trace]. destruct w as [d tr]. cbn [db trace] in *.
  destruct (clients d !! x_scamscreener_client_id h) as [c|] eqn:Hc;
    [|apply (Hreject AUTH_FAILED); auto].
  destruct (ClientRecord.active c =? 1) eqn:Hactive; cbn [negb];
    [|apply (Hreject AUTH_FAILED); auto].
  rewrite bind_run. unfold statement at 1.
  destruct (storageFault env HasSeenNonce) as [e|] eqn:Hf2.
  { apply identify_throws. left. exists HasSeenNonce. congruence. }
  cbn [db trace].
  destruct (Nonces.hasSeenNonce d _ _) eqn:Hseen.
  { apply (Hreject NONCE_REPLAY). right; left. split; [reflexivity|]. exists h. auto. }
  destruct (isMultipart request) eqn:Hmp; cbn [negb].
  2:{ apply (Hreject PAYLOAD_INVALID). right; right. split; [reflexivity|]. exists h. auto. }
  apply identify_continues; auto.
  unfold identified. cbn [validHeaders client db].
  apply Z.eqb_eq in Hactive. auto 10.
Qed.

Lemma commitNonce_run (h : UploadHeaders) (w : World) :
  commitNonce config env request h w
  = match storageFault env PersistNonce,
          nonces (db w) !! (x_scamscreener_client_id h, x_scamscreener_nonce h) with
    | None, None =>
        (Normal None, mkWorld (withCommittedNonce config env h (db w)) (trace w))
    | _, _ => (Some <$> sendError env request 409 NONCE_REPLAY (clientIdForAudit h)) w
    end.
Proof.
  cbv beta iota zeta delta
    [commitNonce tryCatch statement mbind M_bind mret M_ret Nonces.persistNonce
     completion_bind].
  destruct (storageFault env PersistNonce); [reflexivity|].
  destruct (nonces (db w) !! _); reflexivity.
Qed.

Lemma sweep_run (w : World) :
  sweep env w = (Normal tt, mkWorld (afterSweep env (db w)) (trace w)).
Proof.
  cbv beta iota zeta delta
    [sweep tryCatch statement mbind M_bind mret M_ret afterSweep].
  destruct (storageFault env CleanupExpiredNonces); [destruct w; reflexivity|].
  destruct (Nonces.cleanupExpiredNonces (db w) _). reflexivity.
Qed.

Lemma commit_outcome (s : Identified) (w : World) :
  CommitOutcome P config env request s w (verifyAndCommit P config env request s w).
Proof.
  unfold verifyAndCommit. cbv zeta.
  destruct (readMultipartPayload P request (maxUploadBytes config)) as [upload|error] eqn:Hread.
  - rewrite verifySignature_spec.
    rewrite (toLowerCase_idempotent (x_scamscreener_signature (validHeaders s))).
    fold (signatureMatches s upload).
    destruct (signatureMatches s upload) eqn:Hsig.
    + rewrite bind_run, commitNonce_run.
      destruct (storageFault env PersistNonce) as [e|] eqn:Hfault;
        [|destruct (nonces (db w) !! _) as [row|] eqn:Hrow].
      3:{ cbv beta iota zeta delta [mbind M_bind mret M_ret emit].
          rewrite sweep_run. cbn [db trace].
          apply commit_forwards; [exact Hread|exact Hsig|split; assumption]. }
      all: rewrite fmap_run;
        destruct (sendError_outcome 409 NONCE_REPLAY (clientIdForAudit (validHeaders s)) w)
          as [[Hready ->]|[Hnot (e' & ->)]];
        [ eapply commit_rejects_replay; eauto; intros [? ?]; congruence
        | apply commit_throws; exact Hnot ].
    + rewrite fmap_run.
      destruct (sendError_outcome 401 AUTH_FAILED (clientIdForAudit (validHeaders s)) w)
        as [[Hready ->]|[Hnot (e' & ->)]];
        [ eapply commit_rejects_signature; eauto | apply commit_throws; exact Hnot ].
  - destruct (_ || _); rewrite fmap_run.
    + destruct (sendError_outcome 413 FILE_TOO_LARGE (clientIdForAudit (validHeaders s)) w)
        as [[Hready ->]|[Hnot (e' & ->)]];
        [ eapply (commit_rejects_payload _ _ _ _ _ _ FILE_TOO_LARGE); eauto
        | apply commit_throws; exact Hnot ].
    + destruct (sendError_outcome 422 PAYLOAD_INVALID (clientIdForAudit (validHeaders s)) w)
        as [[Hready ->]|[Hnot (e' & ->)]];
        [ eapply (commit_rejects_payload _ _ _ _ _ _ PAYLOAD_INVALID); eauto
        | apply commit_throws; exact Hnot ].
Qed.

Lemma conclude_outcome (f : Forwarding) (w : World) :
  ConcludeOutcome env request f w (conclude env request f w).
Proof.
  unfold conclude. cbv zeta. destruct (forwarded f) as [messageId|e] eqn:Hfwd.
  - cbv beta iota zeta delta
      [writeAuditRow send statement emit mbind M_bind mret M_ret].
    destruct (storageFault env InsertAudit) as [e|] eqn:Hfault.
    { apply conclude_throws. intros [? _]. congruence. }
    destruct (upload_audit (db w) !! rid) as [row|] eqn:Hrow.
    { apply conclude_throws. intros [_ ?]. congruence. }
    cbn [db trace]. rewrite <- app_assoc.
    apply (conclude_forwarded env request f w messageId Hfwd). split; assumption.
  - destruct (sendError_outcome 502 DISCORD_FORWARD_FAILED
                (clientIdForAudit (validHeaders (sender f))) w)
      as [[Hready ->]|[Hnot (e' & ->)]];
      [ eapply conclude_forward_failed; eauto | apply conclude_throws; exact Hnot ].
Qed.

End UploadSteps.

Section UploadHandler.

Import Upload.
Context (P : Platform) (config : AppConfig) (env : Env) (request : Request).

Abbreviation rid := (requestId env).
Abbreviation claimedId := (x_scamscreener_client_id <$> UploadHeadersSchema P (headers request)).

(** The handler is its three steps in sequence, with the other
    requests' effects on the store in between. *)
Lemma handle_outcome (others1 others2 : Database -> Database) (w : World) :
  let r := handle P config env request others1 others2 w in
  (exists reply w', r = (Normal reply, w')
                    /\ IdentifyOutcome P config env request w (Normal (inl reply), w'))
  \/ (exists e, r = (Throw e, w)
                /\ IdentifyOutcome P config env request w (Throw e, w))
  \/ (exists s,
        identified P config env request (db w) s
        /\ let w1 := mkWorld (others1 (db w)) (trace w) in
           (exists reply w', r = (Normal reply, w')
                             /\ CommitOutcome P config env request s w1 (Normal (inl reply), w'))
           \/ (exists e, r = (Throw e, w1)
                         /\ CommitOutcome P config env request s w1 (Throw e, w1))
           \/ (exists f w2,
                 CommitOutcome P config env request s w1 (Normal (inr f), w2)
                 /\ ConcludeOutcome env request f (mkWorld (others2 (db w2)) (trace w2)) r)).
Proof.
  cbv zeta. unfold handle. rewrite bind_run.
  pose proof (identify_outcome P config env request w) as Hid.
  destruct (identify P config env request w) as [[[reply|s]|e] w1].
  - left. eauto.
  - right; right.
    assert (w1 = w /\ identified P config env request (db w) s) as [-> Hs]
      by (inversion Hid; subst; auto).
    exists s. split; [exact Hs|].
    cbv beta iota zeta delta [mbind M_bind mret M_ret interleave].
    pose proof (commit_outcome P config env request s
                  (mkWorld (others1 (db w)) (trace w))) as Hc.
    destruct (verifyAndCommit P config env request s _) as [[[reply|f]|e] w2].
    + left. eauto.
    + right; right. exists f, w2. split; [exact Hc|]. apply conclude_outcome.
    + right; left.
      assert (w2 = mkWorld (others1 (db w)) (trace w)) as -> by (inversion Hc; reflexivity).
      eauto.
  - right; left. assert (w1 = w) as -> by (inversion Hid; reflexivity). eauto.
Qed.

End UploadHandler.

Section UploadAudit.

Import Upload.
Context (P : Platform) (config : AppConfig) (env : Env) (request : Request).

Abbreviation rid := (requestId env).
Abbreviation claimedId := (x_scamscreener_client_id <$> UploadHeadersSchema P (headers request)).

Lemma upload_audit_afterSweep (d : Database) :
  upload_audit (afterSweep env d) = upload_audit d.
Proof. unfold afterSweep. destruct (storageFault env CleanupExpiredNonces); reflexivity. Qed.

Lemma clients_afterSweep (d : Database) : clients (afterSweep env d) = clients d.
Proof. unfold afterSweep. destruct (storageFault env CleanupExpiredNonces); reflexivity. Qed.

Lemma identified_claimedId (d : Database) (s : Identified) :
  identified P config env request d s ->
  claimedId = clientIdForAudit (validHeaders s).
Proof. intros (-> & _). reflexivity. Qed.

Lemma recorded_Recorded cid status errorCode reply w :
  cid = claimedId ->
  Recorded P env request status errorCode reply (trace w)
    (recorded env request cid status errorCode reply w).
Proof.
  intros ->. split; [reflexivity|].
  unfold recorded. cbn [db upload_audit withUploadAudit]. apply lookup_insert_eq.
Qed.

Lemma handle_reply_recorded (others1 others2 : Database -> Database) (d : Database)
    (reply : Reply) (w' : World) :
  handle P config env request others1 others2 (mkWorld d []) = (Normal reply, w') ->
  exists status errorCode pre,
    Recorded P env request status errorCode reply pre w'
    /\ (pre = [] \/ exists input, pre = [ForwarderCalled input])
    /\ ((status = "FORWARDED" /\ errorCode = None
         /\ exists messageId verified,
              reply = mkReply 200 (UploadSuccessResponse rid messageId verified))
        \/ (status = "REJECTED"
            /\ exists code, errorCode = Some code /\ reply = rejection env code)).
Proof.
  intros Hrun.
  destruct (handle_outcome P config env request others1 others2 (mkWorld d []))
    as [(r & w1 & Heq & Hid)|[(e & Heq & _)|(s & Hs & Hrest)]];
    cbv zeta in *; rewrite Hrun in *; try discriminate.
  - injection Heq as <- <-. inversion Hid as [code r0 Hcode Hready| |]; subst.
    exists "REJECTED", (Some code), [].
    split; [apply (recorded_Recorded _ _ _ _ (mkWorld d [])); reflexivity|].
    split; [auto|]. right. eauto.
  - pose proof (identified_claimedId _ _ Hs) as Hcid. cbn [db] in Hcid.
    destruct Hrest as [(r & w1 & Heq & Hc)|[(e & Heq & _)|(f & w2 & Hc & Hf)]];
      try discriminate.
    + injection Heq as <- <-.
      inversion Hc; subst;
        (eexists "REJECTED", (Some _), []; split;
         [apply (recorded_Recorded _ _ _ _ (mkWorld _ [])); symmetry; exact Hcid|];
         split; [auto|]; right; eauto).
    + inversion Hc as [| | |upload Hread Hsig Hcommit|]; subst.
      cbn [db trace parsedUpload sender forwarded app] in Hf.
      inversion Hf; subst; cbn [sender validHeaders parsedUpload] in *.
      * eexists "FORWARDED", None, [_]. split;
          [apply (recorded_Recorded _ _ _ _ (mkWorld _ [_])); symmetry; exact Hcid|].
        split; [eauto|]. left. eauto.
      * eexists "REJECTED", (Some _), [_]. split;
          [apply (recorded_Recorded _ _ _ _ (mkWorld _ [_])); symmetry; exact Hcid|].
        split; [eauto|]. right. eauto.
Qed.

End UploadAudit.

Section Frame.

Import Upload.
Context (rid : string).

Lemma sameView_refl (d : Database) : sameView rid d d.
Proof. unfold sameView. tauto. Qed.

Lemma respects_ret {A} (a : A) : respects rid (mret a : M A).
Proof. intros w1 w2 Ht Hv. auto. Qed.

Lemma respects_throw {A} (e : JsError) : respects rid (throw e : M A).
Proof. intros w1 w2 Ht Hv. auto. Qed.

Lemma respects_emit (ev : Event) : respects rid (emit ev).
Proof. intros w1 w2 Ht Hv. cbn. rewrite Ht. auto. Qed.

Lemma respects_bind {A B} (m : M A) (f : A -> M B) :
  respects rid m -> (forall a, respects rid (f a)) -> respects rid (m ≫= f).
Proof.
  intros Hm Hf w1 w2 Ht Hv. rewrite !bind_run.
  destruct (Hm w1 w2 Ht Hv) as (Hr & Ht' & Hv').
  destruct (m w1) as [[a1|e1] w1'], (m w2) as [[a2|e2] w2']; cbn [fst snd] in *;
    try discriminate; injection Hr as <-; [apply Hf; assumption | auto].
Qed.

Lemma respects_fmap {A B} (g : A -> B) (m : M A) :
  respects rid m -> respects rid (g <$> m).
Proof.
  intros Hm w1 w2 Ht Hv. rewrite !fmap_run.
  destruct (Hm w1 w2 Ht Hv) as (Hr & Ht' & Hv').
  destruct (m w1) as [[a1|e1] w1'], (m w2) as [[a2|e2] w2']; cbn [fst snd] in *;
    try discriminate; injection Hr as <-; auto.
Qed.

Lemma respects_tryCatch {A} (m : M A) (handler : JsError -> M A) :
  respects rid m -> (forall e, respects rid (handler e)) -> respects rid (tryCatch m handler).
Proof.
  intros Hm Hh w1 w2 Ht Hv. unfold tryCatch.
  destruct (Hm w1 w2 Ht Hv) as (Hr & Ht' & Hv').
  destruct (m w1) as [[a1|e1] w1'], (m w2) as [[a2|e2] w2']; cbn [fst snd] in *;
    try discriminate; injection Hr as <-; [auto | apply Hh; assumption].
Qed.

Lemma respects_statement {A} (env : Env) (call : DbCall)
    (run : Database -> completion (A * Database)) :
  (forall d1 d2, sameView rid d1 d2 ->
     match run d1, run d2 with
     | Normal (a1, d1'), Normal (a2, d2') => a1 = a2 /\ sameView rid d1' d2'
     | Throw e1, Throw e2 => e1 = e2
     | _, _ => False
     end) ->
  respects rid (statement env call run).
Proof.
  intros Hrun w1 w2 Ht Hv. unfold statement.
  destruct (storageFault env call); [auto|].
  specialize (Hrun (db w1) (db w2) Hv).
  destruct (run (db w1)) as [[a1 d1]|e1], (run (db w2)) as [[a2 d2]|e2];
    try contradiction; cbn [fst snd db trace].
  - destruct Hrun as [-> Hv']. auto.
  - subst. auto.
Qed.

Lemma respects_interleave_id : respects rid (interleave id).
Proof. intros [d1 t1] [d2 t2] Ht Hv. cbn in *. auto. Qed.

End Frame.

Section FrameHandler.

Import Upload.
Context (P : Platform) (config : AppConfig) (env : Env) (request : Request).

Abbreviation rid := (requestId env).

Lemma respects_sendError sc code cid : respects rid (sendError env request sc code cid).
Proof.
  unfold sendError, writeAuditRow, send.
  repeat (apply respects_bind; [|intros ?]);
    try apply respects_emit; try apply respects_ret.
  apply respects_statement. intros d1 d2 (Hc & Hn & Ha).
  destruct (upload_audit d1 !! rid) as [r1|] eqn:H1,
           (upload_audit d2 !! rid) as [r2|] eqn:H2; try reflexivity;
    try (exfalso; destruct Ha as [Ha1 Ha2]; (discriminate (Ha1 eq_refl) || discriminate (Ha2 eq_refl))).
  split; [reflexivity|]. unfold sameView. cbn [clients nonces upload_audit withUploadAudit].
  rewrite !lookup_insert_eq. repeat split; auto; discriminate.
Qed.

Lemma respects_identify : respects rid (identify P config env request).
Proof.
  unfold identify.
  destruct (UploadHeadersSchema P (headers request)) as [h|];
    [|apply respects_fmap, respects_sendError].
  cbv zeta. destruct (negb _); [apply respects_fmap, respects_sendError|].
  apply respects_bind.
  { apply respects_statement. intros d1 d2 (Hc & Hn & Ha). cbv beta. rewrite Hc.
    split; [reflexivity|]. unfold sameView. auto. }
  intros [c|]; [|apply respects_fmap, respects_sendError].
  destruct (negb _); [apply respects_fmap, respects_sendError|].
  apply respects_bind.
  { apply respects_statement. intros d1 d2 (Hc & Hn & Ha).
    cbv beta. unfold Nonces.hasSeenNonce. rewrite Hn.
    split; [reflexivity|]. unfold sameView. auto. }
  intros [|]; [apply respects_fmap, respects_sendError|].
  destruct (negb _); [apply respects_fmap, respects_sendError|apply respects_ret].
Qed.

Lemma respects_commitNonce h : respects rid (commitNonce config env request h).
Proof.
  unfold commitNonce. cbv zeta. apply respects_tryCatch;
    [|intros e; apply respects_fmap, respects_sendError].
  apply respects_bind; [|intros ?; apply respects_ret].
  apply respects_statement. intros d1 d2 (Hc & Hn & Ha).
  cbv beta iota delta [Nonces.persistNonce mbind completion_bind]. rewrite Hn.
  destruct (nonces d2 !! _); [reflexivity|].
  split; [reflexivity|]. unfold sameView. cbn [clients nonces upload_audit withNonces].
  auto.
Qed.

Lemma respects_sweep : respects rid (sweep env).
Proof.
  unfold sweep. apply respects_tryCatch; [|intros e; apply respects_ret].
  apply respects_bind; [|intros ?; apply respects_ret].
  apply respects_statement. intros d1 d2 (Hc & Hn & Ha).
  cbv beta iota zeta delta [Nonces.cleanupExpiredNonces]. rewrite Hn.
  split; [reflexivity|]. unfold sameView. cbn [clients nonces upload_audit withNonces]. auto.
Qed.

Lemma respects_verifyAndCommit s : respects rid (verifyAndCommit P config env request s).
Proof.
  unfold verifyAndCommit. cbv zeta.
  destruct (readMultipartPayload P request (maxUploadBytes config)) as [upload|error].
  - destruct (Signature.verifySignature _ _ _) as [[|]|e];
      [|apply respects_fmap, respects_sendError|apply respects_throw].
    apply respects_bind; [apply respects_commitNonce|].
    intros [reply|]; [apply respects_ret|].
    apply respects_bind; [apply respects_sweep|intros ?].
    apply respects_bind; [apply respects_emit|intros ?]. apply respects_ret.
  - destruct (_ || _); apply respects_fmap, respects_sendError.
Qed.

Lemma respects_conclude f : respects rid (conclude env request f).
Proof.
  unfold conclude. cbv zeta. destruct (forwarded f); [|apply respects_sendError].
  unfold writeAuditRow, send.
  repeat (apply respects_bind; [|intros ?]);
    try apply respects_emit; try apply respects_ret.
  apply respects_statement. intros d1 d2 (Hc & Hn & Ha).
  destruct (upload_audit d1 !! rid) as [r1|] eqn:H1,
           (upload_audit d2 !! rid) as [r2|] eqn:H2; try reflexivity;
    try (exfalso; destruct Ha as [Ha1 Ha2]; (discriminate (Ha1 eq_refl) || discriminate (Ha2 eq_refl))).
  split; [reflexivity|]. unfold sameView. cbn [clients nonces upload_audit withUploadAudit].
  rewrite !lookup_insert_eq. repeat split; auto; discriminate.
Qed.

(** Served alone, a request gets the same reply from two stores it
    cannot tell apart. *)
Lemma upload_sameView (d1 d2 : Database) :
  sameView rid d1 d2 ->
  fst (upload P config env request d1) = fst (upload P config env request d2).
Proof.
  intros Hv. unfold upload.
  assert (Hall : respects rid (handle P config env request id id)).
  { unfold handle. apply respects_bind; [apply respects_identify|].
    intros [reply|s]; [apply respects_ret|].
    apply respects_bind; [apply respects_interleave_id|intros ?].
    apply respects_bind; [apply respects_verifyAndCommit|].
    intros [reply|f]; [apply respects_ret|].
    apply respects_bind; [apply respects_interleave_id|intros ?].
    apply respects_conclude. }
  apply (Hall (mkWorld d1 []) (mkWorld d2 [])); [reflexivity|exact Hv].
Qed.

End FrameHandler.

Section UploadTheorems.

Import Upload.
Context (P : Platform) (config : AppConfig) (env : Env) (request : Request).

Abbreviation rid := (requestId env).

(** Header validation accepts exactly the well-formed header sets. *)
Lemma UploadHeadersSchema_Some_iff (hs : gmap string string) :
  (exists h, UploadHeadersSchema P hs = Some h) <-> wellFormedHeaders P hs.
Proof.
  unfold UploadHeadersSchema, wellFormedHeaders.
  destruct (hs !! "x-scamscreener-client-id") as [c|]; cbn;
    [|split; [intros [? ?]; discriminate|intros (?&?&?&?&?&_); discriminate]].
  destruct (hs !! "x-scamscreener-timestamp") as [t|]; cbn;
    [|split; [intros [? ?]; discriminate|intros (?&?&?&?&_&_&?&_); discriminate]].
  destruct (hs !! "x-scamscreener-nonce") as [n|]; cbn;
    [|split; [intros [? ?]; discriminate|intros (?&?&?&?&_&_&_&_&?&_); discriminate]].
  destruct (hs !! "x-scamscreener-signature") as [g|]; cbn;
    [|split; [intros [? ?]; discriminate|intros (?&?&?&?&_&_&_&_&_&_&?&_); discriminate]].
  destruct (hs !! "x-scamscreener-signature-version") as [v|]; cbn;
    [|split; [intros [? ?]; discriminate|intros (?&?&?&?&_&_&_&_&_&_&_&_&?); discriminate]].
  destruct (Hex.nonEmpty c) eqn:Hc; cbn [andb].
  2:{ split; [intros [? ?]; discriminate|].
      intros (?&?&?&?&[= <-]&Hne&_). apply nonEmpty_true in Hne. congruence. }
  apply nonEmpty_true in Hc.
  destruct (isDecimalText t) eqn:Ht; cbn [andb].
  2:{ split; [intros [? ?]; discriminate|]. intros (?&?&?&?&_&_&[= <-]&?&_). congruence. }
  destruct (zodUuid P n) eqn:Hn; cbn [andb].
  2:{ split; [intros [? ?]; discriminate|]. intros (?&?&?&?&_&_&_&_&[= <-]&?&_). congruence. }
  destruct (isHex64 g) eqn:Hg; cbn [andb].
  2:{ split; [intros [? ?]; discriminate|].
      intros (?&?&?&?&_&_&_&_&_&_&[= <-]&?&_). congruence. }
  destruct (String.eqb_spec v "v1") as [->|Hv].
  - split; [intros _|eauto]. exists c, t, n, g. auto 10.
  - split; [intros [? ?]; discriminate|].
    intros (?&?&?&?&_&_&_&_&_&_&_&_&[= ?]). congruence.
Qed.

Lemma upload_invalid_headers (d : Database) :
  UploadHeadersSchema P (headers request) = None ->
  auditReady env d ->
  upload P config env request d
  = (Normal (mkReply 401 (uploadError AUTH_FAILED rid)),
     recorded env request None "REJECTED" (Some AUTH_FAILED)
       (mkReply 401 (uploadError AUTH_FAILED rid)) (mkWorld d [])).
Proof.
  intros Hh [Hfault Hfresh]. unfold upload, handle, identify. rewrite Hh.
  rewrite bind_run, fmap_run, sendError_run. cbn [db]. rewrite Hfault, Hfresh. reflexivity.
Qed.

(** C6, as amended. Header validation fails exactly when the headers
    are not well formed, where well formed means: client id non-empty,
    timestamp a decimal numeral, nonce a UUID, signature 64 hexadecimal
    characters of either case, signature version [v1]. When it fails
    (and the audit row can be written) the reply is 401 AUTH_FAILED. A
    signature header that is not 64 hexadecimal characters does not pass. *)
Theorem header_validation_accepts_exactly_well_formed (d : Database) :
  (UploadHeadersSchema P (headers request) = None <-> ~ wellFormedHeaders P (headers request))
  /\ (UploadHeadersSchema P (headers request) = None -> auditReady env d ->
      fst (upload P config env request d) = Normal (mkReply 401 (uploadError AUTH_FAILED rid)))
  /\ (forall signature,
        headers request !! "x-scamscreener-signature" = Some signature ->
        isHex64 signature = false ->
        UploadHeadersSchema P (headers request) = None).
Proof.
  pose proof (UploadHeadersSchema_Some_iff (headers request)) as Hiff.
  split; [|split].
  - destruct (UploadHeadersSchema P (headers request)) as [h|].
    + split; [discriminate|]. intros Hn. exfalso. apply Hn, Hiff. eauto.
    + split; [|reflexivity]. intros _ Hw. apply Hiff in Hw as [h Hh]. discriminate.
  - intros Hnone Hready. rewrite upload_invalid_headers by assumption. reflexivity.
  - intros g Hg Hbad.
    destruct (UploadHeadersSchema P (headers request)) as [h|] eqn:Hh; [|reflexivity].
    exfalso. assert (Hw : wellFormedHeaders P (headers request)) by (apply Hiff; eauto).
    destruct Hw as (?&?&?&g'&_&_&_&_&_&_&Hg'&Hok&_). congruence.
Qed.

(** With no storage fault and a fresh request id, the handler served
    alone returns a reply. *)
Lemma upload_returns (d : Database) :
  (forall call, storageFault env call = None) ->
  upload_audit d !! rid = None ->
  exists reply w', upload P config env request d = (Normal reply, w').
Proof.
  intros Hfault Hfresh. unfold upload.
  assert (Hready : auditReady env d) by (split; auto).
  destruct (handle_outcome P config env request id id (mkWorld d []))
    as [(r & w1 & Heq & Hid)|[(e & Heq & Hid)|(s & Hs & Hrest)]]; cbv zeta in *.
  - eauto.
  - exfalso. inversion Hid as [| |e' [[call Hcall]|Hnot]]; subst.
    + apply Hcall, Hfault.
    + apply Hnot, Hready.
  - destruct Hrest as [(r & w1 & Heq & Hc)|[(e & Heq & Hc)|(f & w2 & Hc & Hf)]].
    + eauto.
    + exfalso. inversion Hc as [| | | |e' Hnot]; subst. apply Hnot, Hready.
    + inversion Hc as [| | |upl Hread Hsig Hcommit|]; subst.
      cbn [db trace] in Hf.
      inversion Hf as [m ? ? ?|e' ? ? ?|e' Hnot]; subst; eauto.
      exfalso. apply Hnot. split; [apply Hfault|].
      cbn [db id]. rewrite upload_audit_afterSweep. exact Hfresh.
Qed.

(** C5, as amended. Whenever the handler returns a reply, whatever other
    requests did to the store in the meantime, its trace ends with
    exactly one audit row followed by the reply, preceded by nothing but
    the call of the forwarder if there was one; the row is in the audit
    table; it has status FORWARDED and no error code for the 200 reply,
    and status REJECTED with the error code of the reply otherwise; and
    it names the client id of the request headers when they passed
    validation, and nobody when they did not. Served alone with a
    working store and a fresh request id, the handler does return a
    reply. *)
Theorem upload_reply_is_audited_exactly_once :
  (forall others1 others2 d reply w',
      handle P config env request others1 others2 (mkWorld d []) = (Normal reply, w') ->
      exists status errorCode pre,
        Recorded P env request status errorCode reply pre w'
        /\ (pre = [] \/ exists input, pre = [ForwarderCalled input])
        /\ ((status = "FORWARDED" /\ errorCode = None
             /\ exists messageId verified,
                  reply = mkReply 200 (UploadSuccessResponse rid messageId verified))
            \/ (status = "REJECTED"
                /\ exists code, errorCode = Some code /\ reply = rejection env code)))
  /\ (forall d,
        (forall call, storageFault env call = None) ->
        upload_audit d !! rid = None ->
        exists reply w', upload P config env request d = (Normal reply, w')).
Proof.
  split.
  - intros others1 others2 d reply w'. apply handle_reply_recorded.
  - apply upload_returns.
Qed.

End UploadTheorems.

(** C6, counterexample. The design document has a signature header that is not 64
    lower-case hexadecimal characters fail header validation. A
    correctly computed signature written in upper case passes it, and
    the upload is forwarded. *)
Lemma uppercase_signature_passes_header_validation :
  let signature := toUpperCase (signatureFor testSecret goodMetadata) in
  let request := requestWith signature goodMetadata in
  ~ Upload.wellFormedAsDocumented platform (Upload.headers request)
  /\ Upload.UploadHeadersSchema platform (Upload.headers request) <> None
  /\ fst (Upload.upload platform config (envWith "u1" noFault forwarderOk) request seeded)
     = Normal (mkReply 200
                 (UploadSuccessResponse "req-u1" "1234567890" (Signature.sha256Hex csv))).
Proof.
  cbv zeta. split; [|split].
  - intros (c & t & n & g & _ & _ & _ & _ & _ & _ & Hg & _ & Hlow).
    vm_compute in Hg. injection Hg as <-. vm_compute in Hlow. discriminate Hlow.
  - vm_compute. discriminate.
  - vm_compute. reflexivity.
Qed.

Lemma header_validation_accepts_exactly_well_formed_witness :
  let request := requestWith "not-a-signature" goodMetadata in
  let env := envWith "u1" noFault forwarderOk in
  Upload.UploadHeadersSchema platform (Upload.headers request) = None
  /\ Upload.auditReady env seeded
  /\ fst (Upload.upload platform config env request seeded)
     = Normal (mkReply 401 (Upload.uploadError AUTH_FAILED "req-u1")).
Proof.
  cbv zeta.
  assert (Hnone : Upload.UploadHeadersSchema platform
                    (Upload.headers (requestWith "not-a-signature" goodMetadata)) = None)
    by (vm_compute; reflexivity).
  assert (Hready : Upload.auditReady (envWith "u1" noFault forwarderOk) seeded)
    by (split; vm_compute; reflexivity).
  split; [exact Hnone|]. split; [exact Hready|].
  exact (proj1 (proj2 (header_validation_accepts_exactly_well_formed platform config
                         (envWith "u1" noFault forwarderOk)
                         (requestWith "not-a-signature" goodMetadata) seeded))
           Hnone Hready).
Defined.

(** C5, counterexample. The design document has the audit row carry no client id
    while identity is not established. A request with well-formed
    headers naming a client that has no credential on record is rejected
    with AUTH_FAILED and audited under the name it claimed. *)
Lemma upload_audit_names_unverified_client :
  let outcome := Upload.upload platform config (envWith "u1" noFault forwarderOk)
                   goodRequest emptyDatabase in
  clients emptyDatabase !! testClientId = None
  /\ fst outcome = Normal (mkReply 401 (Upload.uploadError AUTH_FAILED "req-u1"))
  /\ exists row,
       Upload.trace (snd outcome)
       = [Upload.AuditWritten row;
          Upload.ReplySent (mkReply 401 (Upload.uploadError AUTH_FAILED "req-u1"))]
       /\ AuditRow.client_id row = Some testClientId.
Proof.
  cbv zeta. split; [reflexivity|]. split; [vm_compute; reflexivity|].
  eexists. split; [vm_compute; reflexivity|reflexivity].
Qed.

Lemma upload_reply_is_audited_exactly_once_witness :
  let env := envWith "u1" noFault forwarderOk in
  (forall call, Upload.storageFault env call = None)
  /\ upload_audit seeded !! Upload.requestId env = None
  /\ exists reply w',
       Upload.upload platform config env goodRequest seeded = (Normal reply, w').
Proof.
  cbv zeta.
  assert (Hfault : forall call,
             Upload.storageFault (envWith "u1" noFault forwarderOk) call = None)
    by (intros call; reflexivity).
  assert (Hfresh : upload_audit seeded !! Upload.requestId (envWith "u1" noFault forwarderOk)
                   = None) by (vm_compute; reflexivity).
  split; [exact Hfault|]. split; [exact Hfresh|].
  exact (proj2 (upload_reply_is_audited_exactly_once platform config
                  (envWith "u1" noFault forwarderOk) goodRequest) seeded Hfault Hfresh).
Defined.

Section NonceLedger.

Import Upload.
Context (P : Platform) (config : AppConfig).

(** A request whose nonce is on record is turned away at the
    pre-check: nothing is forwarded and the ledger stays as it is. *)
Lemma upload_replayed (env : Env) (request : Request) (d : Database)
    (h : UploadHeaders) (c : ClientRecord.t) :
  UploadHeadersSchema P (headers request) = Some h ->
  Nonces.isTimestampWithinSkew (Number_of_decimal (x_scamscreener_timestamp h))
    (dateNow env / 1000) (maxClockSkewSeconds config) = true ->
  storageFault env SelectClient = None ->
  storageFault env HasSeenNonce = None ->
  clients d !! x_scamscreener_client_id h = Some c ->
  ClientRecord.active c = 1 ->
  Nonces.hasSeenNonce d (x_scamscreener_client_id h) (x_scamscreener_nonce h) = true ->
  auditReady env d ->
  let reply := rejection env NONCE_REPLAY in
  upload P config env request d
  = (Normal reply,
     recorded env request (clientIdForAudit h) "REJECTED" (Some NONCE_REPLAY) reply
       (mkWorld d [])).
Proof.
  intros Hh Hskew Hf1 Hf2 Hc Hactive Hseen [Hfault Hfresh]. cbv zeta.
  unfold upload, handle, identify. rewrite Hh. cbv zeta. rewrite Hskew. cbn [negb].
  cbv beta iota zeta delta [mbind M_bind mret M_ret statement].
  rewrite Hf1. cbn [db trace]. rewrite Hc, Hactive. cbn [Z.eqb Pos.eqb negb].
  rewrite Hf2. cbn [db trace]. rewrite Hseen.
  rewrite fmap_run, sendError_run. cbn [db]. rewrite Hfault, Hfresh. reflexivity.
Qed.

Lemma nonces_afterSweep_lookup (env : Env) (d : Database) (k : string * string)
    (row : NonceRow.t) :
  nonces d !! k = Some row ->
  Nonces.isExpiredRow (DateTime.toISOString (cleanupTime env)) row = false ->
  nonces (afterSweep env d) !! k = Some row.
Proof.
  intros Hk Hlive. unfold afterSweep.
  destruct (storageFault env CleanupExpiredNonces); [exact Hk|].
  cbn [snd Nonces.cleanupExpiredNonces nonces withNonces].
  apply map_lookup_filter_Some. split; [exact Hk|exact Hlive].
Qed.

Context (env : Env) (request : Request).
Abbreviation rid := (requestId env).

Lemma hasSeenNonce_same_nonces (d1 d2 : Database) (c n : string) :
  nonces d1 = nonces d2 -> Nonces.hasSeenNonce d1 c n = Nonces.hasSeenNonce d2 c n.
Proof. unfold Nonces.hasSeenNonce. intros ->. reflexivity. Qed.

(** A rejection sent before the replay commit leaves the ledger as it
    was, and a later request cannot tell the difference. *)
Lemma upload_stopped (d : Database) (reply : Reply) (w' : World)
    (code : ApiErrorCode) (cid : option string) (X Y : Prop) :
  nonceOnRecord P request d false \/ code <> PAYLOAD_INVALID ->
  code <> DISCORD_FORWARD_FAILED ->
  reply = rejection env code ->
  w' = recorded env request cid "REJECTED" (Some code) reply (mkWorld d []) ->
  ((statusCode reply = 200 \/ statusCode reply = 502) /\ X
   \/ (statusCode reply <> 200 /\ statusCode reply <> 502 /\ nonces (db w') = nonces d))
  /\ (body reply = uploadError PAYLOAD_INVALID rid ->
      nonceOnRecord P request (db w') false
      /\ forall env2 request2,
           requestId env2 <> rid ->
           fst (upload P config env2 request2 (db w'))
           = fst (upload P config env2 request2 d))
  /\ (body reply = uploadError DISCORD_FORWARD_FAILED rid -> Y).
Proof.
  intros Hseen Hcode -> ->.
  cbn [rejection statusCode body recorded db nonces withUploadAudit].
  split; [|split].
  - right. destruct code; cbn [statusOf]; repeat split; try discriminate;
      try reflexivity; contradiction.
  - intros [= ->]. split.
    + destruct Hseen as [(h & Hh & Hs)|Hne]; [|contradiction].
      exists h. split; [exact Hh|]. rewrite <- Hs. apply hasSeenNonce_same_nonces. reflexivity.
    + intros env2 request2 Hne. apply upload_sameView. unfold sameView.
      cbn [clients nonces upload_audit withUploadAudit].
      rewrite lookup_insert_ne by congruence. tauto.
  - intros [= ->]. contradiction.
Qed.

(** C4. For an upload served alone that got a reply. The nonce ledger
    changes only through the replay commit: for a 200 or a 502 reply it
    is the earlier ledger with the row of this request inserted (and
    then swept), and for any other reply it is the earlier ledger.
    After PAYLOAD_INVALID the nonce of the request is not on record, and
    any later request gets the reply it would have got had the rejected
    attempt never happened, so a corrected resubmission with the same
    nonce can succeed. After DISCORD_FORWARD_FAILED the row of the
    request is on record (unless already expired when swept), and the
    same request sent again within the skew window is answered 409
    NONCE_REPLAY without the forwarder being called and without any
    change to the ledger. *)
Theorem nonce_row_is_inserted_at_replay_commit
    (d : Database) (reply : Reply) (w' : World) :
  upload P config env request d = (Normal reply, w') ->
  (((statusCode reply = 200 \/ statusCode reply = 502)
    /\ exists h,
         UploadHeadersSchema P (headers request) = Some h
         /\ nonces d !! (x_scamscreener_client_id h, x_scamscreener_nonce h) = None
         /\ nonces (db w') = nonces (afterSweep env (withCommittedNonce config env h d)))
   \/ (statusCode reply <> 200 /\ statusCode reply <> 502 /\ nonces (db w') = nonces d))
  /\ (body reply = uploadError PAYLOAD_INVALID rid ->
      nonceOnRecord P request (db w') false
      /\ forall env2 request2,
           requestId env2 <> rid ->
           fst (upload P config env2 request2 (db w'))
           = fst (upload P config env2 request2 d))
  /\ (body reply = uploadError DISCORD_FORWARD_FAILED rid ->
      forall h,
        UploadHeadersSchema P (headers request) = Some h ->
        Nonces.isExpiredRow (DateTime.toISOString (cleanupTime env))
          (committedNonce config env h) = false ->
        nonces (db w') !! (x_scamscreener_client_id h, x_scamscreener_nonce h)
        = Some (committedNonce config env h)
        /\ forall retry,
             Nonces.isTimestampWithinSkew
               (Number_of_decimal (x_scamscreener_timestamp h))
               (dateNow retry / 1000) (maxClockSkewSeconds config) = true ->
             storageFault retry SelectClient = None ->
             storageFault retry HasSeenNonce = None ->
             auditReady retry (db w') ->
             exists w2,
               upload P config retry request (db w') = (Normal (rejection retry NONCE_REPLAY), w2)
               /\ (forall input, ~ In (ForwarderCalled input) (trace w2))
               /\ nonces (db w2) = nonces (db w')).
Proof.
  intros Hrun. unfold upload in Hrun.
  destruct (handle_outcome P config env request id id (mkWorld d []))
    as [(r & w1 & Heq & Hid)|[(e & Heq & _)|(s & Hs & Hrest)]];
    cbv zeta in *; rewrite Hrun in *; try discriminate.
  - (* stopped before the payload was read *)
    injection Heq as <- <-. inversion Hid as [code r0 Hcode Hready| |]; subst.
    cbn [db] in Hcode.
    eapply (upload_stopped d _ _ code); [| |reflexivity|reflexivity].
    + destruct Hcode as [->|[[-> _]|[-> Hrec]]]; [right|right|left]; try discriminate.
      exact Hrec.
    + destruct Hcode as [->|[[-> _]|[-> _]]]; discriminate.
  - destruct Hs as (Hh & Hskew & Hclient & Hactive & Hseen & Hmp). cbn [db] in *.
    destruct Hrest as [(r & w1 & Heq & Hc)|[(e & Heq & _)|(f & w2 & Hc & Hf)]];
      try discriminate.
    + (* stopped between the payload and the commit *)
      injection Heq as <- <-.
      assert (Hrec : nonceOnRecord P request d false) by (eexists; eauto).
      inversion Hc as [code err r0 Hread Hcode ?|upl r0 ? ? ?|upl r0 ? ? ? ?| |]; subst;
        (eapply upload_stopped; [left; exact Hrec| |reflexivity|reflexivity]); try discriminate.
      destruct Hcode as [->| ->]; discriminate.
    + (* the nonce was committed and the forwarder called *)
      inversion Hc as [| | |upl Hread Hsig [Hpf Hpk]|]; subst.
      cbn [db trace id] in Hf.
      set (h := validHeaders s) in *.
      assert (Hw' : nonces (db w') = nonces (afterSweep env (withCommittedNonce config env h d))
                    /\ clients (db w') = clients d
                    /\ (statusCode reply = 200 \/ statusCode reply = 502)
                    /\ body reply <> uploadError PAYLOAD_INVALID rid).
      { inversion Hf; subst;
          cbn [recorded rejection statusOf db nonces clients withUploadAudit statusCode body];
          rewrite clients_afterSweep; repeat split; auto; discriminate. }
      destruct Hw' as (Hn & Hcl & Hstatus & Hnot).
      split; [left; split; [exact Hstatus|]; exists h; auto|].
      split; [intros Hbad; contradiction|].
      intros Hfailed h' Hh' Hlive.
      assert (h' = h) as -> by congruence.
      assert (Hrow : nonces (db w') !! (x_scamscreener_client_id h, x_scamscreener_nonce h)
                     = Some (committedNonce config env h)).
      { rewrite Hn. apply nonces_afterSweep_lookup; [|exact Hlive].
        unfold withCommittedNonce. cbn [nonces withNonces]. apply lookup_insert_eq. }
      split; [exact Hrow|].
      intros retry Hskew2 Hf1 Hf2 Hready2.
      eexists. split.
      * apply (upload_replayed retry request (db w') h (client s)); auto.
        -- rewrite Hcl. exact Hclient.
        -- unfold Nonces.hasSeenNonce. rewrite Hrow. reflexivity.
      * cbn [recorded trace db nonces withUploadAudit app]. split; [|reflexivity].
        intros input [Hin|[Hin|[]]]; discriminate.
Qed.

End NonceLedger.

Lemma nonce_row_is_inserted_at_replay_commit_witness :
  let rejected := Upload.upload platform config (envWith "u0" noFault forwarderOk)
                    wrongHashRequest seeded in
  let failed := Upload.upload platform config (envWith "u1" noFault forwarderDown)
                  goodRequest seeded in
  let again := envWith "u2" noFault forwarderOk in
  (fst rejected = Normal (mkReply 422 (Upload.uploadError PAYLOAD_INVALID "req-u0"))
   /\ fst (Upload.upload platform config again goodRequest (Upload.db (snd rejected)))
      = Normal (mkReply 200
                  (UploadSuccessResponse "req-u2" "1234567890" (Signature.sha256Hex csv))))
  /\ (fst failed = Normal (mkReply 502 (Upload.uploadError DISCORD_FORWARD_FAILED "req-u1"))
      /\ Upload.auditReady again (Upload.db (snd failed))
      /\ exists w2,
           Upload.upload platform config again goodRequest (Upload.db (snd failed))
           = (Normal (mkReply 409 (Upload.uploadError NONCE_REPLAY "req-u2")), w2)
           /\ forall input, ~ In (Upload.ForwarderCalled input) (Upload.trace w2)).
Proof.
  cbv zeta. split.
  - assert (Hrun : Upload.upload platform config (envWith "u0" noFault forwarderOk)
                     wrongHashRequest seeded
                   = (Normal (mkReply 422 (Upload.uploadError PAYLOAD_INVALID "req-u0")),
                      snd (Upload.upload platform config (envWith "u0" noFault forwarderOk)
                             wrongHashRequest seeded)))
      by (vm_compute; reflexivity).
    split; [rewrite Hrun; reflexivity|].
    destruct (proj1 (proj2 (nonce_row_is_inserted_at_replay_commit platform config
                              (envWith "u0" noFault forwarderOk) wrongHashRequest seeded
                              _ _ Hrun)) eq_refl) as [_ Hframe].
    rewrite (Hframe (envWith "u2" noFault forwarderOk) goodRequest) by discriminate.
    vm_compute. reflexivity.
  - assert (Hrun : Upload.upload platform config (envWith "u1" noFault forwarderDown)
                     goodRequest seeded
                   = (Normal (mkReply 502 (Upload.uploadError DISCORD_FORWARD_FAILED "req-u1")),
                      snd (Upload.upload platform config (envWith "u1" noFault forwarderDown)
                             goodRequest seeded)))
      by (vm_compute; reflexivity).
    assert (Hready : Upload.auditReady (envWith "u2" noFault forwarderOk)
                       (Upload.db (snd (Upload.upload platform config
                                          (envWith "u1" noFault forwarderDown)
                                          goodRequest seeded))))
      by (split; vm_compute; reflexivity).
    split; [rewrite Hrun; reflexivity|]. split; [exact Hready|].
    destruct (proj2 (proj2 (nonce_row_is_inserted_at_replay_commit platform config
                              (envWith "u1" noFault forwarderDown) goodRequest seeded
                              _ _ Hrun))
                eq_refl
                {| Upload.x_scamscreener_client_id := testClientId;
                   Upload.x_scamscreener_timestamp := "1700000000";
                   Upload.x_scamscreener_nonce := testNonce;
                   Upload.x_scamscreener_signature := signatureFor testSecret goodMetadata;
                   Upload.x_scamscreener_signature_version := "v1" |})
      as [_ Hretry]; [vm_compute; reflexivity | vm_compute; reflexivity |].
    destruct (Hretry (envWith "u2" noFault forwarderOk)) as (w2 & Hw2 & Hnone & _);
      [vm_compute; reflexivity | reflexivity | reflexivity | exact Hready |].
    exists w2. split; [exact Hw2|exact Hnone].
Defined.

(** C2. What the code does at the replay commit. The pre-check passes
    on a store without the nonce. If another request commits the same
    nonce while the payload is read, the insert hits the duplicate key
    and the reply is 409 NONCE_REPLAY, as the design document says. If
    instead the
    storage layer fails on the insert for a reason of its own (here
    SQLITE_BUSY), the reply is 409 NONCE_REPLAY as well, where the
    design document has the failure propagate. *)
Lemma storage_fault_at_replay_commit_is_answered_as_replay :
  Nonces.hasSeenNonce seeded testClientId testNonce = false
  /\ fst (Upload.handle platform config (envWith "u1" noFault forwarderOk) goodRequest
            sameNonceCommitted id (Upload.mkWorld seeded []))
     = Normal (mkReply 409 (Upload.uploadError NONCE_REPLAY "req-u1"))
  /\ fst (Upload.upload platform config (envWith "u1" busyAtCommit forwarderOk)
            goodRequest seeded)
     = Normal (mkReply 409 (Upload.uploadError NONCE_REPLAY "req-u1")).
Proof. split; [|split]; vm_compute; reflexivity. Qed.
